(** * train_qasc.py: the QASC dataset adapter, the metric reshape and the
      epoch driver, as a shallow embedding.

    The development follows [src/train_qasc.py]:
    - [Py]          exceptions as an error monad, [str.format], [list.index];
    - [Dataset]     [QASCDataset.__init__], [__len__], [__getitem__],
                    [collate_fn];
    - [Loaders]     [configure_dataloaders] and the iteration of a
                    [DataLoader];
    - [Metrics]     the [reshape(-1, num_choices).argmax(1)] of
                    [train_or_eval_model];
    - [Driver]      the epoch loop of [__main__] with [dev_best_acc];
    - [Vocabulary]  the functions the properties are stated with;
    - [Samples]     the input lines and files of the worked examples;
    - [Optimizer]   the parameter groups of [configure_optimizer];
    - [Naming]      the names [__main__] derives from the model name;
    - [TestSplit]   the letters of the test predictions. *)

From Stdlib Require Import ZArith QArith Ascii.
From stdpp Require Import base list strings gmap.

Close Scope Q_scope.

(** ** Python exceptions as an error monad *)

Module Py.

Inductive exn : Set := ValueError | IndexError.

Inductive result (A : Type) : Type :=
| Ok (a : A)
| Raise (e : exn).
Arguments Ok {A} a.
Arguments Raise {A} e.

#[export] Instance result_ret : MRet result := fun A a => Ok a.
#[export] Instance result_bind : MBind result := fun A B k m =>
  match m with
  | Ok a => k a
  | Raise e => Raise e
  end.

(** [for a in xs: st = body(st, a)], stopping at the first exception. *)
Fixpoint for_each {S A} (body : S → A → result S) (xs : list A) (st : S)
  : result S :=
  match xs with
  | [] => Ok st
  | a :: xs' => st' ← body st a; for_each body xs' st'
  end.

(** [[f(a) for a in xs]] for a body that may raise. *)
Fixpoint for_list {A B} (f : A → result B) (xs : list A) : result (list B) :=
  match xs with
  | [] => Ok []
  | a :: xs' => b ← f a; bs ← for_list f xs'; Ok (b :: bs)
  end.

(** [template.format(a1, a2, ...)] for the templates the program uses:
    automatic fields [{}] and doubled braces. A field with no argument left
    is an [IndexError], a lone brace a [ValueError]; arguments left over are
    ignored. The arguments are inserted as they are, never scanned. *)
Abbreviation lbrace := ("{"%char) (only parsing).
Abbreviation rbrace := ("}"%char) (only parsing).

Fixpoint format (template : string) (args : list string) : result string :=
  match template with
  | EmptyString => Ok EmptyString
  | String c t =>
      if Ascii.eqb c lbrace then
        match t with
        | String c' t' =>
            if Ascii.eqb c' rbrace then
              match args with
              | a :: args' => r ← format t' args'; Ok (a +:+ r)
              | [] => Raise IndexError
              end
            else if Ascii.eqb c' lbrace then
              r ← format t' args; Ok (String lbrace r)
            else Raise ValueError
        | EmptyString => Raise ValueError
        end
      else if Ascii.eqb c rbrace then
        match t with
        | String c' t' =>
            if Ascii.eqb c' rbrace then
              r ← format t' args; Ok (String rbrace r)
            else Raise ValueError
        | EmptyString => Raise ValueError
        end
      else r ← format t args; Ok (String c r)
  end.

(** [xs.index(x)]: the first position of [x], [ValueError] when absent. *)
Fixpoint index (x : string) (xs : list string) : result nat :=
  match xs with
  | [] => Raise ValueError
  | y :: xs' => if String.eqb y x then Ok 0 else i ← index x xs'; Ok (S i)
  end.

(** [xs[i]] for a non-negative [i]. *)
Definition subscript {A} (xs : list A) (i : nat) : result A :=
  match xs !! i with
  | Some a => Ok a
  | None => Raise IndexError
  end.

End Py.
Export Py.

(** ** The dataset adapter *)

Module Dataset.

(** One line of the input file after [json.loads]: the fields the
    constructor reads. *)
Record instance : Type := {
  stem : string;
  choices : list string;
  answerKey : option string
}.

Record QASCDataset : Type := {
  content : list string;
  labels : list Z
}.

Definition answers : list string :=
  ["A"; "B"; "C"; "D"; "E"; "F"; "G"; "H"].

(** The three [for c in choices: content.append(...)] loops, selected by
    [input_format]; any other format appends nothing. *)
Definition append_choices (input_format sep_token question : string)
    (choices : list string) (content : list string) : result (list string) :=
  if String.eqb input_format "0" then
    for_each (fun content c =>
      t ← format "{} {}" [question; c]; Ok (content ++ [t])) choices content
  else if String.eqb input_format "1" then
    for_each (fun content c =>
      t ← format "{} \n {}" [question; c]; Ok (content ++ [t]))
      choices content
  else if String.eqb input_format "2" then
    for_each (fun content c =>
      t ← format "{} {} {}" [question; sep_token; c]; Ok (content ++ [t]))
      choices content
  else Ok content.

(** The body of [for line in x]. *)
Definition line_step (input_format sep_token : string)
    (st : list string * list Z) (line : instance)
  : result (list string * list Z) :=
  let '(content, labels) := st in
  let question := stem line in
  let choices := choices line in
  let l := match answerKey line with Some k => k | None => "A" end in
  content ← append_choices input_format sep_token question choices content;
  let y := [0; 0; 0; 0; 0; 0; 0; 0]%Z in
  i ← index l answers;
  let y := <[i := 1%Z]> y in
  Ok (content, labels ++ y).

(** [QASCDataset.__init__]. [f] is the list of parsed lines of the file;
    [random_shuffle] is the outcome of [random.shuffle] at this call. *)
Definition init (random_shuffle : list instance → list instance)
    (f : list instance) (sep_token input_format : string) (shuffle : bool)
  : result QASCDataset :=
  let x := f in
  let x := if shuffle then random_shuffle x else x in
  '(content, labels) ← for_each (line_step input_format sep_token) x ([], []);
  Ok {| content := content; labels := labels |}.

Definition len (self : QASCDataset) : nat := length (content self).

Definition getitem (self : QASCDataset) (index : nat) : result (string * Z) :=
  s1 ← subscript (content self) index;
  s2 ← subscript (labels self) index;
  Ok (s1, s2).

(** [collate_fn]: the columns of the list of pairs. *)
Definition collate_fn (data : list (string * Z)) : list string * list Z :=
  (data.*1, data.*2).

(** The examples [self[off], ..., self[off + n - 1]]. *)
Definition group (self : QASCDataset) (off n : nat)
  : result (list (string * Z)) :=
  for_list (getitem self) (seq off n).

(** All the examples, in index order: what an unshuffled loader reads. *)
Definition items (self : QASCDataset) : result (list (string * Z)) :=
  group self 0 (len self).

End Dataset.
Export Dataset.

(** ** Batch loaders *)

Module Loaders.

(** The three input files, as parsed lines. *)
Record files : Type := {
  train_jsonl : list instance;
  dev_jsonl : list instance;
  test_jsonl : list instance
}.

(** [DataLoader(dataset, shuffle=..., batch_size=..., collate_fn=...)]. *)
Record DataLoader : Type := {
  dataset : QASCDataset;
  dl_shuffle : bool;
  batch_size : nat
}.

(** The constructor of a loader: the library refuses a shuffling loader
    over an empty dataset (its random sampler needs a positive number of
    samples) and a batch size of 0. *)
Definition new_DataLoader (ds : QASCDataset) (shuffle : bool)
    (batch_size : nat) : result DataLoader :=
  if shuffle && Nat.eqb (len ds) 0 then Raise ValueError
  else if Nat.eqb batch_size 0 then Raise ValueError
  else Ok {| dataset := ds; dl_shuffle := shuffle;
             batch_size := batch_size |}.

Definition configure_dataloaders
    (random_shuffle : list instance → list instance) (fs : files)
    (sep_token : string) (train_batch_size eval_batch_size : nat)
    (shuffle : bool) (input_format : string)
  : result (DataLoader * DataLoader * DataLoader) :=
  train_dataset ←
    init random_shuffle (train_jsonl fs) sep_token input_format true;
  train_loader ← new_DataLoader train_dataset shuffle train_batch_size;
  val_dataset ←
    init random_shuffle (dev_jsonl fs) sep_token input_format false;
  val_loader ← new_DataLoader val_dataset false eval_batch_size;
  test_dataset ←
    init random_shuffle (test_jsonl fs) sep_token input_format false;
  test_loader ← new_DataLoader test_dataset false eval_batch_size;
  Ok (train_loader, val_loader, test_loader).

(** Consecutive slices of [n] indices; the last one may be shorter. *)
Fixpoint slices (fuel n : nat) (l : list nat) : list (list nat) :=
  match fuel with
  | 0 => []
  | S fuel' =>
      match l with
      | [] => []
      | _ => take n l :: slices fuel' n (drop n l)
      end
  end.

(** One pass over a loader. [sampler] is the order a random sampler draws
    (a permutation of the indices); a loader with [shuffle=False] reads the
    indices in order. Every batch is collated; a loader with a batch size
    of 0 cannot be built, and a pass over one raises. *)
Definition batches (sampler : list nat) (dl : DataLoader)
  : result (list (list string * list Z)) :=
  if Nat.eqb (batch_size dl) 0 then Raise ValueError else
  let indices :=
    if dl_shuffle dl then sampler else seq 0 (len (dataset dl)) in
  for_list (fun idx => data ← for_list (getitem (dataset dl)) idx;
                       Ok (collate_fn data))
           (slices (length indices) (batch_size dl) indices).

End Loaders.
Export Loaders.

(** ** Instance labels in the metric aggregator *)

Module Metrics.

Definition num_choices : nat := 8.

(** Rows [0 .. k-1] of width [n] of a flat array. *)
Fixpoint rows (k n : nat) (flat : list Z) : list (list Z) :=
  match k with
  | 0 => []
  | S k' => take n flat :: rows k' n (drop n flat)
  end.

(** [np.array(flat).reshape(-1, n)]: the free dimension is the size divided
    by [n]; a size that [n] does not divide is a [ValueError]. *)
Definition reshape (flat : list Z) (n : nat) : result (list (list Z)) :=
  if Nat.eqb n 0 then Raise ValueError
  else if Nat.eqb (length flat mod n) 0
       then Ok (rows (length flat / n) n flat)
       else Raise ValueError.

(** The first position of the largest entry, as [argmax] gives it. *)
Fixpoint argmax_from (best : Z) (besti i : nat) (row : list Z) : nat :=
  match row with
  | [] => besti
  | v :: row' =>
      if (best <? v)%Z then argmax_from v i (S i) row'
      else argmax_from best besti (S i) row'
  end.

Definition argmax (row : list Z) : result nat :=
  match row with
  | [] => Raise ValueError
  | v :: row' => Ok (argmax_from v 0 1 row')
  end.

(** [np.array(all_labels_cls).reshape(-1, args.num_choices).argmax(1)], on
    labels that fit 64-bit integers, as the 0/1 labels of the dataset do
    (the array keeps them exact). *)
Definition instance_labels (all_labels_cls : list Z) : result (list nat) :=
  m ← reshape all_labels_cls num_choices;
  for_list argmax m.

End Metrics.
Export Metrics.

(** ** The epoch driver *)

Module Driver.

(** What the checkpoint decision reads and writes: the variable
    [dev_best_acc] and the calls of [save_model], recorded by epoch number
    [e + 1]. Accuracies are finite floats, taken here as rationals. *)
Record run_state : Type := {
  dev_best_acc : Q;
  saved : list nat
}.

Definition gt (a b : Q) : bool := negb (Qle_bool a b).

(** The checkpoint decision of one pass of [for e in range(epochs)]. *)
Definition epoch_step (st : run_state) (e : nat) (val_acc : Q) : run_state :=
  if gt val_acc (dev_best_acc st) then
    {| dev_best_acc := dev_best_acc st; saved := saved st ++ [S e] |}
  else st.

Fixpoint epochs_from (e : nat) (val_accs : list Q) (st : run_state)
  : run_state :=
  match val_accs with
  | [] => st
  | a :: rest => epochs_from (S e) rest (epoch_step st e a)
  end.

(** The run: [dev_best_acc = 0], then one pass per epoch; [val_accs] are
    the validation accuracies the model produced, epoch by epoch. *)
Definition run (val_accs : list Q) : run_state :=
  epochs_from 0 val_accs {| dev_best_acc := 0%Q; saved := [] |}.

(** The decision as the specification words it: the best value is updated
    on every improvement. *)
Definition spec_epoch_step (st : run_state) (e : nat) (val_acc : Q)
  : run_state :=
  if gt val_acc (dev_best_acc st) then
    {| dev_best_acc := val_acc; saved := saved st ++ [S e] |}
  else st.

Fixpoint spec_epochs_from (e : nat) (val_accs : list Q) (st : run_state)
  : run_state :=
  match val_accs with
  | [] => st
  | a :: rest => spec_epochs_from (S e) rest (spec_epoch_step st e a)
  end.

Definition spec_run (val_accs : list Q) : run_state :=
  spec_epochs_from 0 val_accs {| dev_best_acc := 0%Q; saved := [] |}.

End Driver.
Export Driver.

(** * Vocabulary of the properties *)

Module Vocabulary.

(** The answer letter of a line, with the placeholder of unlabelled data. *)
Definition key (r : instance) : string := default "A" (answerKey r).

(** The texts appended for one line. *)
Definition texts (input_format sep_token : string) (r : instance)
  : list string :=
  if String.eqb input_format "0" then
    map (fun c => stem r +:+ " " +:+ c) (choices r)
  else if String.eqb input_format "1" then
    map (fun c => stem r +:+ " \n " +:+ c) (choices r)
  else if String.eqb input_format "2" then
    map (fun c => stem r +:+ " " +:+ sep_token +:+ " " +:+ c) (choices r)
  else [].

(** The eight labels appended for one line. *)
Definition one_hot (r : instance) : result (list Z) :=
  i ← index (key r) answers; Ok (<[i := 1%Z]> (replicate 8 0%Z)).

(** The pairs of one line when its texts and labels start at the same
    index. *)
Definition aligned_group (input_format sep_token : string) (r : instance)
    (y : list Z) : list (string * Z) :=
  zip (texts input_format sep_token r) y.

(** The lines the loop runs over. *)
Definition lines_read (random_shuffle : list instance → list instance)
    (f : list instance) (shuffle : bool) : list instance :=
  if shuffle then random_shuffle f else f.

(** A line whose answer letter is in the label space. *)
Definition key_ok (r : instance) : Prop := key r ∈ answers.

#[export] Instance key_ok_dec (r : instance) : Decision (key_ok r).
Proof. unfold key_ok. apply _. Defined.

(** The labels of a line, as a total function: the one-hot vector of a
    line with a good key. *)
Definition label_vector (r : instance) : list Z :=
  match index (key r) answers with
  | Ok i => <[i := 1%Z]> (replicate 8 0%Z)
  | Raise _ => replicate 8 0%Z
  end.

(** The index of the first text of a line read after the lines [pre]. *)
Definition record_offset (input_format sep_token : string)
    (pre : list instance) : nat :=
  length (concat (map (texts input_format sep_token) pre)).

(** The line [r], read after [pre], is exposed as one example per choice,
    in choice order, labelled 1 at the answer's position and 0 elsewhere. *)
Definition one_hot_group (input_format sep_token : string)
    (ds : QASCDataset) (pre : list instance) (r : instance) : Prop :=
  ∃ i, index (key r) answers = Ok i ∧ i < length (choices r) ∧
       group ds (record_offset input_format sep_token pre)
             (length (choices r))
       = Ok (zip (texts input_format sep_token r)
                 (<[i := 1%Z]> (replicate (length (choices r)) 0%Z))).

(** The two characters backslash and n that mode 1 puts in the text. *)
Definition newline_marker : string :=
  String (Ascii.ascii_of_nat 92) (String (Ascii.ascii_of_nat 110) "").

(** The text of one choice, by mode. *)
Definition joined (input_format sep_token question c : string) : string :=
  if String.eqb input_format "0" then question +:+ " " +:+ c
  else if String.eqb input_format "1" then question +:+ " \n " +:+ c
  else question +:+ " " +:+ sep_token +:+ " " +:+ c.

(** Consecutive blocks of the given sizes. *)
Fixpoint split_groups {A} (sizes : list nat) (l : list A) : list (list A) :=
  match sizes with
  | [] => []
  | n :: sizes' => take n l :: split_groups sizes' (drop n l)
  end.

(** The examples of a dataset built from the lines [x], line by line: the
    line read at position k owns as many consecutive examples as it
    appended texts. *)
Definition example_groups (input_format sep_token : string)
    (x : list instance) (ds : QASCDataset)
  : result (list (list (string * Z))) :=
  its ← items ds;
  Ok (split_groups (map (fun r => length (texts input_format sep_token r)) x)
                   its).

End Vocabulary.
Export Vocabulary.

(** * Sample inputs *)

Module Samples.

Definition line_xy : instance :=
  {| stem := "stem"; choices := ["x"; "y"]; answerKey := Some "B" |}.

Definition line_pq : instance :=
  {| stem := "stem2"; choices := ["p"; "q"]; answerKey := Some "A" |}.

Definition line_abcdefgh : instance :=
  {| stem := "q8"; choices := ["a"; "b"; "c"; "d"; "e"; "f"; "g"; "h"];
     answerKey := Some "C" |}.

Definition line_key_D : instance :=
  {| stem := "stem"; choices := ["x"; "y"]; answerKey := Some "D" |}.

Definition line_key_I : instance :=
  {| stem := "stem"; choices := ["x"; "y"]; answerKey := Some "I" |}.

Definition line_yx : instance :=
  {| stem := "stem"; choices := ["y"; "x"; "z"]; answerKey := None |}.

Definition line_ijklmnop : instance :=
  {| stem := "q9"; choices := ["i"; "j"; "k"; "l"; "m"; "n"; "o"; "p"];
     answerKey := Some "A" |}.

Definition two_questions : files :=
  {| train_jsonl := [line_abcdefgh; line_ijklmnop];
     dev_jsonl := [line_abcdefgh];
     test_jsonl := [line_ijklmnop] |}.

(** A draw of the random sampler over 16 examples: examples 7 and 8 change
    places. *)
Definition sampler_swap_7_8 : list nat :=
  [0; 1; 2; 3; 4; 5; 6; 8; 7; 9; 10; 11; 12; 13; 14; 15].

End Samples.
Export Samples.

(** * The rest of the program *)

(** ** Parameter groups of the optimizer *)

Module Optimizer.

(** [p] is the beginning of [s]. *)
Fixpoint startswith (p s : string) : bool :=
  match p, s with
  | EmptyString, _ => true
  | String a p', String b s' => Ascii.eqb a b && startswith p' s'
  | String _ _, EmptyString => false
  end.

(** [nd in n] on strings. *)
Fixpoint contains (nd n : string) : bool :=
  startswith nd n ||
  match n with
  | EmptyString => false
  | String _ n' => contains nd n'
  end.

Definition no_decay : list string := ["bias"; "LayerNorm.weight"].

(** [any(nd in n for nd in no_decay)]. *)
Definition any_no_decay (n : string) : bool :=
  existsb (fun nd => contains nd n) no_decay.

Section Groups.

(** The parameters of the model are opaque values of a type [P]. *)
Context {P : Type}.

Record param_group : Type := {
  params : list P;
  weight_decay : Q
}.

(** [optimizer_grouped_parameters] of [configure_optimizer]: the list given
    to [AdamW]. [named_parameters] is [model.named_parameters()], [wd] is
    [args.wd]. *)
Definition optimizer_grouped_parameters
    (named_parameters : list (string * P)) (wd : Q) : list param_group :=
  [ {| params :=
         (filter (fun np => any_no_decay np.1 = false) named_parameters).*2;
       weight_decay := wd |};
    {| params :=
         (filter (fun np => any_no_decay np.1 = true) named_parameters).*2;
       weight_decay := 0%Q |} ].

End Groups.

End Optimizer.
Export Optimizer.

(** ** Names derived from the model name *)

Module Naming.

(** [s.index(c)] for a one-character [c]. *)
Fixpoint index_char (c : Ascii.ascii) (s : string) : result nat :=
  match s with
  | EmptyString => Raise ValueError
  | String a s' =>
      if Ascii.eqb a c then Ok 0 else i ← index_char c s'; Ok (S i)
  end.

(** [s[k:]] for a non-negative [k]. *)
Fixpoint slice_from (k : nat) (s : string) : string :=
  match k, s with
  | 0, _ => s
  | S k', String _ s' => slice_from k' s'
  | S _, EmptyString => EmptyString
  end.

(** [s.replace(old, new)] for one-character [old] and [new]. *)
Fixpoint replace_char (old new : Ascii.ascii) (s : string) : string :=
  match s with
  | EmptyString => EmptyString
  | String a s' =>
      String (if Ascii.eqb a old then new else a) (replace_char old new s')
  end.

(** The suffix [sp] of the experiment-tracking project name. *)
Definition sp (name : string) : result string :=
  if contains "/" name then
    i ← index_char "/"%char name; Ok (slice_from (i + 1) name)
  else Ok name.

(** [name.replace("/", "-")], the file-name form of the model name. *)
Definition dashed (name : string) : string :=
  replace_char "/"%char "-"%char name.

End Naming.
Export Naming.

(** ** Letters of the test predictions *)

Module TestSplit.

Definition mapper : gmap nat string :=
  list_to_map [(0, "A"); (1, "B"); (2, "C"); (3, "D");
               (4, "E"); (5, "F"); (6, "G"); (7, "H")].

(** [[mapper[item] for item in instance_preds]]; [None] is the [KeyError]
    of a prediction that is not a key of [mapper]. *)
Definition instance_preds_ (instance_preds : list nat)
  : option (list string) :=
  mapM (fun item => mapper !! item) instance_preds.

(** [[item for sublist in xs for item in sublist]]. *)
Definition flatten {A} (xs : list (list A)) : list A := concat xs.

End TestSplit.
Export TestSplit.

(** ** More vocabulary *)

Module Positions.

(** The position of the answer letter of a line in the label space (0 for a
    letter that is not there). *)
Definition answer_position (r : instance) : nat :=
  match index (key r) answers with
  | Ok i => i
  | Raise _ => 0
  end.

(** The name [n] has "bias" or "LayerNorm.weight" somewhere inside. *)
Definition no_decay_name (n : string) : Prop :=
  (∃ a b, n = a +:+ "bias" +:+ b) ∨
  (∃ a b, n = a +:+ "LayerNorm.weight" +:+ b).

Definition line_nine : instance :=
  {| stem := "q"; choices := ["1"; "2"; "3"; "4"; "5"; "6"; "7"; "8"; "9"];
     answerKey := Some "A" |}.

Definition line_unlabelled : instance :=
  {| stem := "t"; choices := ["a"; "b"; "c"; "d"; "e"; "f"; "g"; "h"];
     answerKey := None |}.

End Positions.
Export Positions.

(** * Properties *)

(** ** The error monad and the Python primitives *)

Section PyFacts.

Context {A B : Type}.

Lemma for_list_Ok (f : A → result B) (g : A → B) (xs : list A) :
  (∀ a, a ∈ xs → f a = Ok (g a)) → for_list f xs = Ok (map g xs).
Proof.
  induction xs as [|a xs IH]; intros Hf; [reflexivity|].
  simpl. rewrite (Hf a) by left. simpl.
  rewrite IH by (intros; apply Hf; by right). reflexivity.
Qed.

(** A loop that appends one computed element per iteration. *)
Lemma for_each_append (f : A → result B) (g : A → B) (xs : list A)
    (acc : list B) :
  (∀ a, f a = Ok (g a)) →
  for_each (fun acc a => t ← f a; Ok (acc ++ [t])) xs acc
  = Ok (acc ++ map g xs).
Proof.
  intros Hf. revert acc. induction xs as [|a xs IH]; intros acc; simpl.
  - by rewrite app_nil_r.
  - rewrite Hf. simpl. rewrite IH. by rewrite <- app_assoc.
Qed.

End PyFacts.

Lemma append_empty (s : string) : s +:+ "" = s.
Proof.
  induction s as [|c s IH]; [done|].
  change (String c (s +:+ "") = String c s). by rewrite IH.
Qed.

(** The three templates of the program, on arbitrary arguments. *)
Lemma format_0 (question c : string) :
  format "{} {}" [question; c] = Ok (question +:+ " " +:+ c).
Proof. cbn. by rewrite append_empty. Qed.

Lemma format_1 (question c : string) :
  format "{} \n {}" [question; c] = Ok (question +:+ " \n " +:+ c).
Proof. cbn. by rewrite append_empty. Qed.

Lemma format_2 (question sep_token c : string) :
  format "{} {} {}" [question; sep_token; c]
  = Ok (question +:+ " " +:+ sep_token +:+ " " +:+ c).
Proof. cbn. by rewrite append_empty. Qed.

Lemma index_Ok (x : string) (xs : list string) (i : nat) :
  index x xs = Ok i → xs !! i = Some x.
Proof.
  revert i. induction xs as [|y xs IH]; intros i; simpl; [done|].
  destruct (String.eqb_spec y x) as [->|_].
  - by intros [= <-].
  - destruct (index x xs); simpl; [|done]. intros [= <-]. by apply IH.
Qed.

Lemma index_Raise (x : string) (xs : list string) (e : exn) :
  index x xs = Raise e → e = ValueError ∧ x ∉ xs.
Proof.
  induction xs as [|y xs IH]; simpl.
  - intros [= <-]. split; [done|]. by intros ?%elem_of_nil.
  - destruct (String.eqb_spec y x) as [->|Hne]; [done|].
    destruct (index x xs); simpl; [done|].
    intros [= <-]. destruct IH as [-> Hnot]; [done|]. split; [done|].
    intros [?|?]%elem_of_cons; [congruence|done].
Qed.

Lemma index_elem (x : string) (xs : list string) :
  x ∈ xs → ∃ i, index x xs = Ok i.
Proof.
  intros Hin. destruct (index x xs) as [i|e] eqn:E; [by exists i|].
  by apply index_Raise in E as [_ ?].
Qed.

(** ** What one line contributes *)

Section LineFacts.

Variables input_format sep_token : string.

Lemma append_choices_eq (question : string) (cs content : list string) :
  append_choices input_format sep_token question cs content
  = Ok (content ++
        texts input_format sep_token
          {| stem := question; choices := cs; answerKey := None |}).
Proof.
  unfold append_choices, texts. cbn [stem choices].
  repeat case_match.
  - apply (for_each_append (fun c => format "{} {}" [question; c])).
    intros c. apply format_0.
  - apply (for_each_append (fun c => format "{} \n {}" [question; c])).
    intros c. apply format_1.
  - apply (for_each_append
             (fun c => format "{} {} {}" [question; sep_token; c])).
    intros c. apply format_2.
  - by rewrite app_nil_r.
Qed.

Lemma texts_stem_choices (r : instance) (k : option string) :
  texts input_format sep_token
    {| stem := stem r; choices := choices r; answerKey := k |}
  = texts input_format sep_token r.
Proof. reflexivity. Qed.

Lemma line_step_eq (content : list string) (labels : list Z) (r : instance) :
  line_step input_format sep_token (content, labels) r
  = (y ← one_hot r;
     Ok (content ++ texts input_format sep_token r, labels ++ y)).
Proof.
  unfold line_step, one_hot.
  rewrite append_choices_eq, (texts_stem_choices r None).
  unfold key, default. cbn [mbind result_bind].
  destruct (answerKey r) as [k|]; unfold id.
  - by destruct (index k answers).
  - reflexivity.
Qed.

Lemma lines_eq (x : list instance) (content : list string) (labels : list Z) :
  for_each (line_step input_format sep_token) x (content, labels)
  = (ys ← for_list one_hot x;
     Ok (content ++ concat (map (texts input_format sep_token) x),
         labels ++ concat ys)).
Proof.
  revert content labels. induction x as [|r x IH]; intros content labels.
  - simpl. by rewrite !app_nil_r.
  - cbn [for_each for_list]. rewrite line_step_eq.
    destruct (one_hot r) as [y|e]; cbn [mbind result_bind]; [|done].
    rewrite IH. destruct (for_list one_hot x) as [ys|e]; [|done].
    cbn [mbind result_bind concat map]. by rewrite <- !app_assoc.
Qed.

Lemma length_texts (r : instance) :
  input_format ∈ ["0"; "1"; "2"] →
  length (texts input_format sep_token r) = length (choices r).
Proof.
  intros Hin. unfold texts. rewrite !elem_of_cons, elem_of_nil in Hin.
  destruct Hin as [H|[H|[H|[]]]]; rewrite H; cbn; by rewrite length_map.
Qed.

Lemma texts_other (r : instance) :
  input_format ∉ ["0"; "1"; "2"] → texts input_format sep_token r = [].
Proof.
  intros Hn. unfold texts.
  destruct (String.eqb_spec input_format "0") as [?|_];
    [exfalso; apply Hn; rewrite !elem_of_cons; tauto|].
  destruct (String.eqb_spec input_format "1") as [?|_];
    [exfalso; apply Hn; rewrite !elem_of_cons; tauto|].
  destruct (String.eqb_spec input_format "2") as [?|_];
    [exfalso; apply Hn; rewrite !elem_of_cons; tauto|].
  done.
Qed.

End LineFacts.

(** ** The constructed dataset *)

Lemma length_label_vector (r : instance) : length (label_vector r) = 8.
Proof. unfold label_vector. case_match; by rewrite ?length_insert. Qed.

Lemma length_concat_label_vector (x : list instance) :
  length (concat (map label_vector x)) = 8 * length x.
Proof.
  induction x as [|r x IH]; [done|].
  cbn [map concat]. rewrite length_app, length_label_vector, IH. simpl. lia.
Qed.

Lemma one_hot_ok (r : instance) : key_ok r → one_hot r = Ok (label_vector r).
Proof.
  intros [i Hi]%index_elem. unfold one_hot, label_vector. by rewrite Hi.
Qed.

Lemma one_hot_bad (r : instance) : ¬ key_ok r → one_hot r = Raise ValueError.
Proof.
  intros Hbad. unfold one_hot.
  destruct (index (key r) answers) as [i|e] eqn:E.
  - exfalso. apply Hbad. apply index_Ok in E.
    eapply list_elem_of_lookup_2. exact E.
  - by apply index_Raise in E as [-> _].
Qed.

Lemma labels_ok (x : list instance) :
  Forall key_ok x → for_list one_hot x = Ok (map label_vector x).
Proof.
  intros Hx. apply for_list_Ok. intros r Hr. apply one_hot_ok.
  by eapply Forall_forall in Hx.
Qed.

Lemma labels_bad (x : list instance) :
  ¬ Forall key_ok x → for_list one_hot x = Raise ValueError.
Proof.
  induction x as [|r x IH]; intros Hbad.
  - by destruct Hbad.
  - cbn [for_list]. destruct (decide (key_ok r)) as [Hr|Hr].
    + rewrite (one_hot_ok r Hr). cbn [mbind result_bind].
      rewrite IH; [done|]. intros Hx. apply Hbad. by constructor.
    + by rewrite (one_hot_bad r Hr).
Qed.

Section DatasetFacts.

Variable random_shuffle : list instance → list instance.
Variables sep_token input_format : string.

Lemma init_eq (f : list instance) (shuffle : bool) :
  init random_shuffle f sep_token input_format shuffle
  = (ys ← for_list one_hot (lines_read random_shuffle f shuffle);
     Ok {| content := concat (map (texts input_format sep_token)
                                  (lines_read random_shuffle f shuffle));
           labels := concat ys |}).
Proof.
  unfold init, lines_read. rewrite lines_eq.
  by destruct (for_list one_hot _).
Qed.

Lemma init_ok (f : list instance) (shuffle : bool) :
  Forall key_ok (lines_read random_shuffle f shuffle) →
  init random_shuffle f sep_token input_format shuffle
  = Ok {| content := concat (map (texts input_format sep_token)
                                 (lines_read random_shuffle f shuffle));
          labels := concat (map label_vector
                                (lines_read random_shuffle f shuffle)) |}.
Proof. intros Hx. by rewrite init_eq, labels_ok. Qed.

Lemma init_bad (f : list instance) (shuffle : bool) :
  ¬ Forall key_ok (lines_read random_shuffle f shuffle) →
  init random_shuffle f sep_token input_format shuffle = Raise ValueError.
Proof. intros Hx. by rewrite init_eq, labels_bad. Qed.

End DatasetFacts.

Lemma getitem_middle (c1 c2 : list string) (l1 l2 : list Z) (t : string)
    (v : Z) :
  length c1 = length l1 →
  getitem {| content := c1 ++ t :: c2; labels := l1 ++ v :: l2 |} (length c1)
  = Ok (t, v).
Proof.
  intros Hlen. unfold getitem, subscript. cbn [content labels].
  rewrite (list_lookup_middle l1 l2 v (length c1)) by done.
  by rewrite (list_lookup_middle c1 c2 t (length c1)).
Qed.

(** Reading a block of examples out of a dataset whose texts and labels
    both have the block at the same index. *)
Lemma group_middle (c1 c2 c3 : list string) (l1 l2 l3 : list Z) :
  length c1 = length l1 →
  length c2 ≤ length l2 →
  group {| content := c1 ++ c2 ++ c3; labels := l1 ++ l2 ++ l3 |}
        (length c1) (length c2)
  = Ok (zip c2 l2).
Proof.
  revert c1 l1 l2. induction c2 as [|t c2 IH]; intros c1 l1 l2 Hlen Hle.
  - reflexivity.
  - destruct l2 as [|v l2]; [simpl in Hle; lia|].
    unfold group. cbn [length seq for_list].
    rewrite <- !app_comm_cons, getitem_middle by done.
    cbn [mbind result_bind].
    specialize (IH (c1 ++ [t]) (l1 ++ [v]) l2).
    rewrite !length_app in IH. cbn [length] in IH.
    replace (length c1 + 1) with (S (length c1)) in IH by lia.
    unfold group in IH. rewrite <- !app_assoc in IH. cbn [app] in IH.
    rewrite IH; [done|lia|simpl in Hle; lia].
Qed.

Lemma zip_one_hot_prefix (ts : list string) (i : nat) :
  i < length ts → length ts ≤ 8 →
  zip ts (<[i := 1%Z]> (replicate 8 0%Z))
  = zip ts (<[i := 1%Z]> (replicate (length ts) 0%Z)).
Proof.
  intros Hi Hle.
  rewrite <- (zip_with_take_r pair ts (<[i := 1%Z]> (replicate 8 0%Z))).
  rewrite take_insert_lt by done. rewrite take_replicate.
  by rewrite Nat.min_l.
Qed.

(** C1 (as amended). In a file read with a format mode among 0, 1, 2, a line
    with at most 8 choices whose answer letter is one of its first
    [len(choices)] letters, and before which every line contributed 8 texts
    (so that its texts and its labels start at the same index), is exposed
    as exactly [len(choices)] examples, of which the one at the answer's
    position has label 1 and all others label 0. *)
Theorem record_group_one_hot
    (random_shuffle : list instance → list instance) (f : list instance)
    (sep_token input_format : string) (shuffle : bool)
    (pre : list instance) (r : instance) (post : list instance) (i : nat) :
  input_format ∈ ["0"; "1"; "2"] →
  lines_read random_shuffle f shuffle = pre ++ r :: post →
  Forall key_ok pre → Forall key_ok post →
  record_offset input_format sep_token pre = 8 * length pre →
  length (choices r) ≤ 8 →
  index (key r) answers = Ok i → i < length (choices r) →
  ∃ ds, init random_shuffle f sep_token input_format shuffle = Ok ds ∧
        one_hot_group input_format sep_token ds pre r ∧
        len ds = record_offset input_format sep_token pre
                 + length (choices r)
                 + record_offset input_format sep_token post.
Proof.
  intros Hfmt Hx Hpre Hpost Hoff Hle Hi Hlt.
  assert (Hr : key_ok r).
  { apply index_Ok in Hi. eapply list_elem_of_lookup_2. exact Hi. }
  eexists. split; [|split].
  - apply init_ok. rewrite Hx. apply Forall_app. split; [done|by constructor].
  - exists i. split; [done|]. split; [done|].
    rewrite Hx, !map_app, !concat_app. cbn [map concat].
    rewrite <- (length_texts input_format sep_token r Hfmt).
    unfold record_offset.
    rewrite group_middle.
    + f_equal. unfold label_vector. rewrite Hi.
      apply zip_one_hot_prefix;
        rewrite (length_texts input_format sep_token r Hfmt); done.
    + unfold record_offset in Hoff.
      by rewrite Hoff, length_concat_label_vector.
    + rewrite length_label_vector.
      by rewrite (length_texts input_format sep_token r Hfmt).
  - unfold len, record_offset. cbn [content].
    rewrite Hx, map_app, concat_app. cbn [map concat].
    rewrite !length_app.
    rewrite (length_texts input_format sep_token r Hfmt). lia.
Qed.

(** The scenario of the specification: in a 2-line file read in mode 0 whose
    first line has choices x, y and answer key B, that line yields exactly
    the pairs (stem x, 0) and (stem y, 1). *)
Lemma record_group_one_hot_witness :
  ∃ ds, init id [line_xy; line_pq] "</s>" "0" false = Ok ds ∧
        group ds 0 2 = Ok [("stem x", 0%Z); ("stem y", 1%Z)].
Proof.
  destruct (record_group_one_hot id [line_xy; line_pq] "</s>" "0" false
              [] line_xy [line_pq] 1)
    as (ds & Hds & (i & Hi & _ & Hg) & _).
  - by left.
  - reflexivity.
  - constructor.
  - constructor; [by left|constructor].
  - reflexivity.
  - simpl. lia.
  - reflexivity.
  - simpl. lia.
  - injection Hi as <-. exists ds. split; [exact Hds|exact Hg].
Defined.

(** C1, counterexample. In the 2-line file [line_xy; line_pq] read in mode 0,
    the second line has answer key A, one of its first two letters, yet its
    two examples are both labelled 0: the labels of the first line take 8
    positions while its texts take 2. *)
Lemma second_line_group_not_one_hot :
  (∃ i, index (key line_pq) answers = Ok i ∧ i < length (choices line_pq)) ∧
  (∃ ds, init id [line_xy; line_pq] "</s>" "0" false = Ok ds ∧
         group ds 2 2 = Ok [("stem2 p", 0%Z); ("stem2 q", 0%Z)]) ∧
  ¬ (∃ ds, init id [line_xy; line_pq] "</s>" "0" false = Ok ds ∧
           one_hot_group "0" "</s>" ds [line_xy] line_pq).
Proof.
  split; [|split].
  - exists 0. split; [reflexivity|simpl; lia].
  - eexists. split; reflexivity.
  - intros (ds & Hds & i & Hi & _ & Hg).
    vm_compute in Hds. injection Hds as <-.
    vm_compute in Hi. injection Hi as <-.
    vm_compute in Hg. discriminate Hg.
Qed.

(** ** Failure of the construction *)

(** C3 (as amended). The construction fails exactly when some line it reads
    has an answer key outside the fixed letters A to H (a line without a key
    counts as A), whatever the number of choices of that line; the failure
    is the index-lookup failure of [answers.index]. *)
Theorem init_fails_iff_key_outside_answers
    (random_shuffle : list instance → list instance) (f : list instance)
    (sep_token input_format : string) (shuffle : bool) (e : exn) :
  init random_shuffle f sep_token input_format shuffle = Raise e
  ↔ e = ValueError ∧
    Exists (fun r => key r ∉ answers) (lines_read random_shuffle f shuffle).
Proof.
  destruct (decide (Forall key_ok (lines_read random_shuffle f shuffle)))
    as [Hok|Hbad].
  - rewrite init_ok by done. split; [done|].
    intros [_ Hex]. exfalso.
    apply Exists_exists in Hex as (r & Hr & Hkey).
    eapply Forall_forall in Hok; [|exact Hr]. by apply Hkey.
  - rewrite init_bad by done. split.
    + intros [= <-]. split; [done|].
      apply not_Forall_Exists in Hbad; [|apply _].
      eapply Exists_impl; [exact Hbad|]. by intros r Hr.
    + by intros [-> _].
Qed.

(** C3, counterexample. A line with 2 choices and answer key D is formatted
    without failure: the label 1 goes to position 3 of the 8 labels. *)
Lemma two_choices_key_D_succeeds :
  length (choices line_key_D) = 2 ∧ answerKey line_key_D = Some "D" ∧
  init id [line_key_D] "</s>" "0" false
  = Ok {| content := ["stem x"; "stem y"];
          labels := [0; 0; 0; 1; 0; 0; 0; 0]%Z |} ∧
  ¬ (∃ e, init id [line_key_D] "</s>" "0" false = Raise e).
Proof.
  repeat split. intros [e He]. vm_compute in He. discriminate He.
Qed.

Example key_I_fails :
  init id [line_key_I] "</s>" "0" false = Raise ValueError.
Proof. reflexivity. Qed.

(** ** Format modes other than 0, 1, 2 *)

Lemma concat_texts_other (input_format sep_token : string)
    (x : list instance) :
  input_format ∉ ["0"; "1"; "2"] →
  concat (map (texts input_format sep_token) x) = [].
Proof.
  intros Hfmt. induction x as [|r x IH]; [done|].
  cbn [map concat]. rewrite IH. by rewrite texts_other.
Qed.

(** C10 (as amended). With a format mode outside 0, 1, 2 the construction
    fails exactly when some line of the file has an answer key outside A to
    H, as in every mode, and then with the index-lookup failure. On a file
    whose keys are all in A to H it succeeds with an empty text sequence, so
    that the dataset reports length 0, while its labels are, line by line in
    the order read, the 8-element one-hot vector of the line's answer
    letter: 8 labels per line of the file, not empty when the file is
    not. *)
Theorem other_format_no_texts
    (random_shuffle : list instance → list instance) (f : list instance)
    (sep_token input_format : string) (shuffle : bool) :
  input_format ∉ ["0"; "1"; "2"] →
  (∀ x, random_shuffle x ≡ₚ x) →
  (∀ e, init random_shuffle f sep_token input_format shuffle = Raise e
        ↔ e = ValueError ∧ Exists (fun r => key r ∉ answers) f) ∧
  (∀ e, init random_shuffle f sep_token input_format shuffle = Raise e →
        init random_shuffle f sep_token "0" shuffle = Raise e) ∧
  (Forall key_ok f →
   ∃ ds, init random_shuffle f sep_token input_format shuffle = Ok ds ∧
         content ds = [] ∧ len ds = 0 ∧
         labels ds
         = concat (map (fun r => <[answer_position r := 1%Z]>
                                   (replicate 8 0%Z))
                       (lines_read random_shuffle f shuffle)) ∧
         Forall (fun r => index (key r) answers = Ok (answer_position r) ∧
                          answer_position r < 8)
                (lines_read random_shuffle f shuffle) ∧
         length (labels ds) = 8 * length f ∧
         (f ≠ [] → labels ds ≠ [])).
Proof.
  intros Hfmt Hperm.
  assert (Hx : lines_read random_shuffle f shuffle ≡ₚ f).
  { unfold lines_read. destruct shuffle; [apply Hperm|done]. }
  split; [|split].
  - intros e.
    destruct (decide (Forall key_ok (lines_read random_shuffle f shuffle)))
      as [Hok|Hbad].
    + rewrite init_ok by done. split; [done|].
      intros [_ Hex]. exfalso.
      apply Exists_exists in Hex as (r & Hr & Hkey).
      assert (Hr' : r ∈ lines_read random_shuffle f shuffle).
      { by rewrite Hx. }
      eapply Forall_forall in Hok; [|exact Hr']. by apply Hkey.
    + rewrite init_bad by done. split.
      * intros [= <-]. split; [done|].
        apply not_Forall_Exists in Hbad; [|apply _].
        apply Exists_exists in Hbad as (r & Hr & Hkey).
        apply Exists_exists. exists r. split; [by rewrite <- Hx|done].
      * by intros [-> _].
  - intros e. rewrite !init_eq.
    by destruct (for_list one_hot (lines_read random_shuffle f shuffle)).
  - intros Hok.
    assert (Hok' : Forall key_ok (lines_read random_shuffle f shuffle)).
    { eapply Permutation_Forall; [symmetry; exact Hx|done]. }
    eexists. split; [by apply init_ok|].
    cbn [content labels].
    assert (Hnil : concat (map (texts input_format sep_token)
                               (lines_read random_shuffle f shuffle)) = []).
    { by apply concat_texts_other. }
    assert (Hlen : length (concat (map label_vector
                     (lines_read random_shuffle f shuffle))) = 8 * length f).
    { by rewrite length_concat_label_vector, Hx. }
    assert (Hpos : Forall (fun r => index (key r) answers
                                    = Ok (answer_position r) ∧
                                    answer_position r < 8 ∧
                                    label_vector r
                                    = <[answer_position r := 1%Z]>
                                        (replicate 8 0%Z))
                          (lines_read random_shuffle f shuffle)).
    { eapply Forall_impl; [exact Hok'|]. intros r [i Hi]%index_elem.
      unfold answer_position, label_vector. rewrite Hi.
      split; [done|]. split; [|done].
      apply index_Ok, lookup_lt_Some in Hi. exact Hi. }
    split; [done|]. split; [unfold len; cbn [content]; by rewrite Hnil|].
    split; [|split; [|split]].
    + f_equal. apply Forall_fmap_ext_1.
      eapply Forall_impl; [exact Hpos|]. by intros r (_ & _ & ?).
    + eapply Forall_impl; [exact Hpos|]. by intros r (? & ? & _).
    + done.
    + intros Hne Hl. rewrite Hl in Hlen. destruct f; [done|].
      simpl in Hlen. lia.
Qed.

Lemma other_format_no_texts_witness :
  ∃ ds, init reverse [line_xy; line_pq] "</s>" "3" true = Ok ds ∧
        content ds = [] ∧ len ds = 0 ∧
        labels ds = [1; 0; 0; 0; 0; 0; 0; 0; 0; 1; 0; 0; 0; 0; 0; 0]%Z ∧
        length (labels ds) = 8 * length [line_xy; line_pq] ∧
        ([line_xy; line_pq] ≠ [] → labels ds ≠ []).
Proof.
  destruct (other_format_no_texts reverse [line_xy; line_pq] "</s>" "3" true)
    as (_ & _ & Hok).
  - rewrite !elem_of_cons, elem_of_nil. intros [H|[H|[H|[]]]]; discriminate H.
  - intros x. apply reverse_Permutation.
  - destruct Hok as (ds & Hds & Hc & Hl & Hlab & _ & Hlen & Hne).
    + repeat constructor.
    + exists ds. by repeat split.
Defined.

(** C10, counterexample. In mode 3, outside 0, 1, 2, the construction fails
    on the one-line file whose line has answer key I: the label code runs
    in every mode and looks the key up in A to H. *)
Lemma other_format_fails_on_key_I :
  ("3" ∉ ["0"; "1"; "2"]) ∧
  init id [line_key_I] "</s>" "3" false = Raise ValueError.
Proof.
  split; [|reflexivity].
  rewrite !elem_of_cons, elem_of_nil. intros [H|[H|[H|[]]]]; discriminate H.
Qed.

(** ** The formatted text *)

Example newline_marker_length : String.length newline_marker = 2.
Proof. reflexivity. Qed.

(** C6 (as amended). For every stem and choice strings the text appended is:
    in mode 0, stem, one space, choice; in mode 1, stem, one space, the
    two-character marker backslash-n, one space, choice; in mode 2, stem,
    one space, the separator token, one space, choice. *)
Theorem formatted_text (sep_token question : string)
    (cs content : list string) :
  append_choices "0" sep_token question cs content
  = Ok (content ++ map (fun c => question +:+ " " +:+ c) cs) ∧
  append_choices "1" sep_token question cs content
  = Ok (content ++
        map (fun c => question +:+ " " +:+ newline_marker +:+ " " +:+ c) cs) ∧
  append_choices "2" sep_token question cs content
  = Ok (content ++
        map (fun c => question +:+ " " +:+ sep_token +:+ " " +:+ c) cs).
Proof. repeat split; apply append_choices_eq. Qed.

(** C6, counterexample. In modes 1 and 2 the text is not the stem, the
    marker (or the separator token) and the choice put next to each other:
    for stem s and choice c it is the 6 characters of s, space, backslash,
    n, space, c, and with the token it has a space on each side of it. *)
Lemma marker_is_surrounded_by_spaces :
  append_choices "1" "</s>" "s" ["c"] []
  ≠ Ok ["s" +:+ newline_marker +:+ "c"] ∧
  append_choices "2" "</s>" "s" ["c"] [] ≠ Ok ["s" +:+ "</s>" +:+ "c"] ∧
  append_choices "1" "</s>" "s" ["c"] [] = Ok ["s \n c"] ∧
  append_choices "2" "</s>" "s" ["c"] [] = Ok ["s </s> c"].
Proof. repeat split; intros H; vm_compute in H; discriminate H. Qed.

Lemma texts_joined (input_format sep_token : string) (r : instance) :
  input_format ∈ ["0"; "1"; "2"] →
  texts input_format sep_token r
  = map (joined input_format sep_token (stem r)) (choices r).
Proof.
  intros Hin. rewrite !elem_of_cons, elem_of_nil in Hin.
  unfold texts, joined. by destruct Hin as [->|[->|[->|[]]]].
Qed.

(** The text of choice [j] of a line read after the lines [pre]. *)
Lemma content_lookup
    (random_shuffle : list instance → list instance) (f : list instance)
    (sep_token input_format : string) (shuffle : bool) (ds : QASCDataset)
    (pre : list instance) (r : instance) (post : list instance)
    (j : nat) (c : string) :
  input_format ∈ ["0"; "1"; "2"] →
  init random_shuffle f sep_token input_format shuffle = Ok ds →
  lines_read random_shuffle f shuffle = pre ++ r :: post →
  choices r !! j = Some c →
  content ds !! (record_offset input_format sep_token pre + j)
  = Some (joined input_format sep_token (stem r) c).
Proof.
  intros Hfmt Hds Hx Hj. rewrite init_eq in Hds.
  destruct (for_list one_hot _) as [ys|e]; [|done].
  injection Hds as <-. cbn [content].
  rewrite Hx, map_app, concat_app. cbn [map concat].
  unfold record_offset. rewrite lookup_app_r by lia.
  replace (_ + j - _) with j by lia.
  rewrite lookup_app_l.
  - rewrite texts_joined by done. by rewrite list_lookup_fmap, Hj.
  - rewrite length_texts by done. by eapply lookup_lt_Some.
Qed.

(** C8. In modes 0, 1, 2 the text produced for a choice is determined by the
    stem, the choice, the mode and the separator token: two constructions,
    over any two files with any shuffling, give the same string for two
    choices equal as strings of lines with equal stems, whatever the
    position of the lines, their other choices and their answer keys. *)
Theorem text_determined_by_stem_and_choice
    (sep_token input_format : string)
    (random_shuffle1 random_shuffle2 : list instance → list instance)
    (f1 f2 : list instance) (shuffle1 shuffle2 : bool)
    (ds1 ds2 : QASCDataset)
    (pre1 pre2 : list instance) (r1 r2 : instance)
    (post1 post2 : list instance) (j1 j2 : nat) (c : string) :
  input_format ∈ ["0"; "1"; "2"] →
  init random_shuffle1 f1 sep_token input_format shuffle1 = Ok ds1 →
  init random_shuffle2 f2 sep_token input_format shuffle2 = Ok ds2 →
  lines_read random_shuffle1 f1 shuffle1 = pre1 ++ r1 :: post1 →
  lines_read random_shuffle2 f2 shuffle2 = pre2 ++ r2 :: post2 →
  stem r1 = stem r2 →
  choices r1 !! j1 = Some c →
  choices r2 !! j2 = Some c →
  ∃ t, content ds1 !! (record_offset input_format sep_token pre1 + j1)
       = Some t ∧
       content ds2 !! (record_offset input_format sep_token pre2 + j2)
       = Some t.
Proof.
  intros Hfmt Hds1 Hds2 Hx1 Hx2 Hstem Hj1 Hj2.
  exists (joined input_format sep_token (stem r1) c). split.
  - by eapply content_lookup.
  - rewrite Hstem. by eapply content_lookup.
Qed.

Lemma text_determined_by_stem_and_choice_witness :
  ∃ t, [ "stem \n x"; "stem \n y" ] !! (0 + 0) = Some t ∧
       [ "stem2 \n p"; "stem2 \n q"; "stem \n y"; "stem \n x"; "stem \n z" ]
         !! (2 + 1) = Some t.
Proof.
  apply (text_determined_by_stem_and_choice "</s>" "1" id reverse
           [line_xy] [line_yx; line_pq] false true
           {| content := [ "stem \n x"; "stem \n y" ];
              labels := [0; 1; 0; 0; 0; 0; 0; 0]%Z |}
           {| content := [ "stem2 \n p"; "stem2 \n q"; "stem \n y";
                           "stem \n x"; "stem \n z" ];
              labels := [1; 0; 0; 0; 0; 0; 0; 0;
                         1; 0; 0; 0; 0; 0; 0; 0]%Z |}
           [] [line_pq] line_xy line_yx [] [] 0 1 "x").
  - rewrite !elem_of_cons. tauto.
  - reflexivity.
  - reflexivity.
  - reflexivity.
  - reflexivity.
  - reflexivity.
  - reflexivity.
  - reflexivity.
Defined.

(** ** The reshape of the label sequence *)

Lemma rows_spec (k n : nat) (flat : list Z) :
  length flat = k * n →
  length (rows k n flat) = k ∧
  Forall (fun row => length row = n) (rows k n flat) ∧
  concat (rows k n flat) = flat.
Proof.
  revert flat. induction k as [|k IH]; intros flat Hlen.
  - simpl in *. apply nil_length_inv in Hlen as ->. by repeat split.
  - cbn [rows]. destruct (IH (drop n flat)) as (Hk & Hrows & Hcat).
    { rewrite length_drop. simpl in Hlen. lia. }
    split; [simpl; by rewrite Hk|]. split.
    + constructor; [|done]. rewrite length_take. simpl in Hlen. lia.
    + cbn [concat]. rewrite Hcat. apply take_drop.
Qed.

(** C4. The reshape into groups of 8 succeeds on every flat sequence of
    length 8k, giving k groups of 8 that together are the sequence, and
    raises on every sequence of any other length. *)
Theorem reshape_groups_of_8 (flat : list Z) :
  (∀ k, length flat = 8 * k →
        ∃ m, reshape flat num_choices = Ok m ∧ length m = k ∧
             Forall (fun row => length row = 8) m ∧ concat m = flat) ∧
  ((∀ k, length flat ≠ 8 * k) → reshape flat num_choices = Raise ValueError).
Proof.
  unfold reshape, num_choices. cbn [Nat.eqb]. split.
  - intros k Hk.
    assert (Hmod : length flat `mod` 8 = 0).
    { rewrite Hk, Nat.mul_comm. by apply Nat.Div0.mod_mul. }
    assert (Hdiv : length flat `div` 8 = k).
    { rewrite Hk, Nat.mul_comm. by apply Nat.div_mul. }
    rewrite Hmod, Hdiv. cbn [Nat.eqb].
    destruct (rows_spec k 8 flat) as (H1 & H2 & H3); [lia|].
    by exists (rows k 8 flat).
  - intros Hno.
    destruct (Nat.eqb_spec (length flat `mod` 8) 0) as [H0|]; [|done].
    exfalso. apply (Hno (length flat `div` 8)).
    pose proof (Nat.div_mod_eq (length flat) 8). lia.
Qed.

Lemma reshape_groups_of_8_witness :
  (∃ m, reshape [0; 0; 1; 0; 0; 0; 0; 0; 1; 0; 0; 0; 0; 0; 0; 0]%Z
                num_choices = Ok m ∧
        length m = 2 ∧ Forall (fun row => length row = 8) m ∧
        concat m = [0; 0; 1; 0; 0; 0; 0; 0; 1; 0; 0; 0; 0; 0; 0; 0]%Z) ∧
  reshape [0; 0; 1; 0; 0; 0; 0]%Z num_choices = Raise ValueError.
Proof.
  split.
  - apply (proj1 (reshape_groups_of_8
                    [0; 0; 1; 0; 0; 0; 0; 0; 1; 0; 0; 0; 0; 0; 0; 0]%Z) 2).
    reflexivity.
  - apply (proj2 (reshape_groups_of_8 [0; 0; 1; 0; 0; 0; 0]%Z)).
    intros k. simpl. lia.
Defined.

(** One question with 8 choices and answer key C: the labels are the one-hot
    vector of position 2, and the instance label is 2. *)
Example instance_label_of_key_C :
  (ds ← init id [line_abcdefgh] "</s>" "1" false;
   instance_labels (labels ds)) = Ok [2].
Proof. reflexivity. Qed.

Example reshape_empty : reshape [] num_choices = Ok [].
Proof. reflexivity. Qed.

(** ** The checkpoint decision *)

Lemma epochs_from_dev_best_acc (e : nat) (val_accs : list Q)
    (st : run_state) :
  dev_best_acc (epochs_from e val_accs st) = dev_best_acc st.
Proof.
  revert e st. induction val_accs as [|a rest IH]; intros e st; [done|].
  cbn [epochs_from]. rewrite IH. unfold epoch_step. by case_match.
Qed.

(** [dev_best_acc] is never assigned in the loop: it is 0 at the end of
    every run. *)
Lemma run_dev_best_acc (val_accs : list Q) :
  dev_best_acc (run val_accs) = 0%Q.
Proof. unfold run. by rewrite epochs_from_dev_best_acc. Qed.

(** The epochs at which the checkpoint is written are those whose
    validation accuracy is above 0. *)
Lemma epochs_from_saved (e : nat) (val_accs : list Q) (st : run_state)
    (n : nat) :
  dev_best_acc st = 0%Q →
  n ∈ saved (epochs_from e val_accs st)
  ↔ n ∈ saved st ∨
    ∃ i a, n = S (e + i) ∧ val_accs !! i = Some a ∧ gt a 0 = true.
Proof.
  revert e st. induction val_accs as [|a rest IH]; intros e st Hst.
  - simpl. split; [by left|]. intros [H|(i & b & _ & H & _)]; [done|].
    by rewrite lookup_nil in H.
  - cbn [epochs_from]. rewrite IH by (unfold epoch_step; by case_match).
    unfold epoch_step. rewrite Hst. split.
    + intros [H|(i & b & -> & Hi & Hb)].
      * destruct (gt a 0) eqn:Ha; [|by left].
        cbn [saved] in H. apply elem_of_app in H as [H|H]; [by left|].
        apply list_elem_of_singleton in H as ->. right.
        exists 0, a. by rewrite Nat.add_0_r.
      * right. exists (S i), b. split; [lia|done].
    + intros [H|(i & b & -> & Hi & Hb)].
      * left. destruct (gt a 0); [|done].
        cbn [saved]. apply elem_of_app. by left.
      * destruct i as [|i].
        -- left. simpl in Hi. injection Hi as ->. rewrite Hb.
           cbn [saved]. apply elem_of_app. right.
           rewrite Nat.add_0_r. by apply list_elem_of_singleton.
        -- right. exists i, b. split; [lia|done].
Qed.

Lemma run_saved (val_accs : list Q) (n : nat) :
  n ∈ saved (run val_accs)
  ↔ ∃ i a, n = S i ∧ val_accs !! i = Some a ∧ gt a 0 = true.
Proof.
  unfold run. rewrite epochs_from_saved by done. cbn [saved]. split.
  - intros [H|H]; [by apply elem_of_nil in H|done].
  - intros H. by right.
Qed.

(** C2, the code at the failing input. With validation accuracies 0.5 and
    0.5 the checkpoint is written at epoch 1 and again at epoch 2, the
    second time at an accuracy equal to the best seen before; the decision
    as specified writes it at epoch 1 only. [dev_best_acc] is still 0 at the
    end of the run. *)
Theorem checkpoint_written_on_equal_accuracy :
  saved (run [1 # 2; 1 # 2]%Q) = [1; 2] ∧
  dev_best_acc (run [1 # 2; 1 # 2]%Q) = 0%Q ∧
  saved (spec_run [1 # 2; 1 # 2]%Q) = [1].
Proof. repeat split. Qed.

(** ** Which loaders shuffle *)

Lemma new_DataLoader_Ok (ds : QASCDataset) (shuffle : bool) (bs : nat)
    (dl : DataLoader) :
  new_DataLoader ds shuffle bs = Ok dl →
  dataset dl = ds ∧ dl_shuffle dl = shuffle ∧ batch_size dl = bs ∧ 0 < bs.
Proof.
  unfold new_DataLoader.
  destruct (shuffle && Nat.eqb (len ds) 0); [done|].
  destruct (Nat.eqb_spec bs 0) as [|Hbs]; [done|].
  intros [= <-]. cbn. repeat split. lia.
Qed.

Lemma batches_unshuffled (s1 s2 : list nat) (dl : DataLoader) :
  dl_shuffle dl = false → batches s1 dl = batches s2 dl.
Proof. intros H. unfold batches. by rewrite H. Qed.

(** C9. Whatever the shuffle flag, the training dataset is built with
    record-level shuffling on and the validation and test datasets with it
    off; the flag is the shuffle of the training loader only, the validation
    and test loaders read their examples in index order whatever the sampler
    draws. With the flag on, a draw of the training loader's sampler can put
    the examples of one question into different batches. *)
Theorem train_shuffled_eval_in_order :
  (∀ (random_shuffle : list instance → list instance) (fs : files)
     (sep_token : string) (train_batch_size eval_batch_size : nat)
     (shuffle : bool) (input_format : string)
     (train_loader val_loader test_loader : DataLoader),
     configure_dataloaders random_shuffle fs sep_token train_batch_size
       eval_batch_size shuffle input_format
     = Ok (train_loader, val_loader, test_loader) →
     init random_shuffle (train_jsonl fs) sep_token input_format true
     = Ok (dataset train_loader) ∧
     content (dataset train_loader)
     = concat (map (texts input_format sep_token)
                   (random_shuffle (train_jsonl fs))) ∧
     dl_shuffle train_loader = shuffle ∧
     init random_shuffle (dev_jsonl fs) sep_token input_format false
     = Ok (dataset val_loader) ∧
     content (dataset val_loader)
     = concat (map (texts input_format sep_token) (dev_jsonl fs)) ∧
     dl_shuffle val_loader = false ∧
     init random_shuffle (test_jsonl fs) sep_token input_format false
     = Ok (dataset test_loader) ∧
     content (dataset test_loader)
     = concat (map (texts input_format sep_token) (test_jsonl fs)) ∧
     dl_shuffle test_loader = false ∧
     (∀ s1 s2, batches s1 val_loader = batches s2 val_loader) ∧
     (∀ s1 s2, batches s1 test_loader = batches s2 test_loader)) ∧
  (∃ train_loader val_loader test_loader b0 b1,
     configure_dataloaders id two_questions "</s>" 8 8 true "0"
     = Ok (train_loader, val_loader, test_loader) ∧
     sampler_swap_7_8 ≡ₚ seq 0 (len (dataset train_loader)) ∧
     batches sampler_swap_7_8 train_loader = Ok [b0; b1] ∧
     "q8 a" ∈ b0.1 ∧ "q8 h" ∈ b1.1 ∧ "q8 h" ∉ b0.1).
Proof.
  split.
  - intros rs fs sep tb eb flag fmt tr va te H.
    unfold configure_dataloaders in H.
    destruct (init rs (train_jsonl fs) sep fmt true) as [dtr|] eqn:Etr;
      [|done].
    cbn [mbind result_bind] in H.
    destruct (new_DataLoader dtr flag tb) as [ltr|] eqn:Ltr; [|done].
    destruct (init rs (dev_jsonl fs) sep fmt false) as [dva|] eqn:Eva;
      [|done].
    cbn [mbind result_bind] in H.
    destruct (new_DataLoader dva false eb) as [lva|] eqn:Lva; [|done].
    destruct (init rs (test_jsonl fs) sep fmt false) as [dte|] eqn:Ete;
      [|done].
    cbn [mbind result_bind] in H.
    destruct (new_DataLoader dte false eb) as [lte|] eqn:Lte; [|done].
    cbn [mbind result_bind] in H. injection H as <- <- <-.
    apply new_DataLoader_Ok in Ltr as (Hdtr & Hstr & _ & _).
    apply new_DataLoader_Ok in Lva as (Hdva & Hsva & _ & _).
    apply new_DataLoader_Ok in Lte as (Hdte & Hste & _ & _).
    subst dtr dva dte.
    rewrite init_eq in Etr, Eva, Ete. unfold lines_read in Etr, Eva, Ete.
    destruct (for_list one_hot (rs (train_jsonl fs))); [|done].
    destruct (for_list one_hot (dev_jsonl fs)); [|done].
    destruct (for_list one_hot (test_jsonl fs)); [|done].
    injection Etr as <-. injection Eva as <-. injection Ete as <-.
    repeat split; try done; intros; by apply batches_unshuffled.
  - eexists _, _, _, _, _. split; [reflexivity|].
    split; [|split; [reflexivity|]].
    + cbn. do 7 apply perm_skip. apply perm_swap.
    + cbn. split; [by left|]. split; [by left|].
      rewrite !elem_of_cons, elem_of_nil.
      intros H; repeat (destruct H as [H|H]; [discriminate H|]); done.
Qed.

Lemma train_shuffled_eval_in_order_witness :
  ∃ train_loader val_loader test_loader,
    configure_dataloaders reverse two_questions "</s>" 8 8 false "2"
    = Ok (train_loader, val_loader, test_loader) ∧
    content (dataset train_loader)
    = concat (map (texts "2" "</s>") (reverse (train_jsonl two_questions))) ∧
    dl_shuffle train_loader = false ∧
    dl_shuffle val_loader = false ∧
    dl_shuffle test_loader = false.
Proof.
  destruct (configure_dataloaders reverse two_questions "</s>" 8 8 false "2")
    as [[[tr va] te]|e] eqn:E; [|vm_compute in E; discriminate E].
  exists tr, va, te.
  destruct (proj1 train_shuffled_eval_in_order reverse two_questions "</s>"
              8 8 false "2" tr va te E)
    as (_ & H1 & H2 & _ & _ & H3 & _ & _ & H4 & _).
  by repeat split.
Defined.

(** ** Record-level shuffling *)

Lemma items_zip (c : list string) (l : list Z) :
  length c ≤ length l →
  items {| content := c; labels := l |} = Ok (zip c l).
Proof.
  intros Hle. pose proof (group_middle [] c [] [] l []) as H.
  rewrite !app_nil_r in H. by apply H.
Qed.

Lemma split_groups_aligned (input_format sep_token : string)
    (x : list instance) :
  Forall (fun r => length (texts input_format sep_token r) = 8) x →
  split_groups (map (fun r => length (texts input_format sep_token r)) x)
    (zip (concat (map (texts input_format sep_token) x))
         (concat (map label_vector x)))
  = map (fun r => aligned_group input_format sep_token r (label_vector r)) x.
Proof.
  induction 1 as [|r x Hr Hx IH]; [done|].
  cbn [map concat split_groups].
  assert (Hlen : length (texts input_format sep_token r)
                 = length (label_vector r)).
  { by rewrite length_label_vector. }
  rewrite (zip_with_app pair _ _ _ _ Hlen).
  rewrite <- (length_zip_with_l_eq pair (texts input_format sep_token r)
                (label_vector r)) at 1 2 by done.
  rewrite take_app_length, drop_app_length. f_equal. apply IH.
Qed.

Lemma length_concat_texts_aligned (input_format sep_token : string)
    (x : list instance) :
  Forall (fun r => length (texts input_format sep_token r) = 8) x →
  length (concat (map (texts input_format sep_token) x)) = 8 * length x.
Proof.
  induction 1 as [|r x Hr Hx IH]; [done|].
  cbn [map concat]. rewrite length_app, Hr, IH. simpl. lia.
Qed.

Lemma example_groups_aligned (input_format sep_token : string)
    (x : list instance) :
  Forall (fun r => length (texts input_format sep_token r) = 8) x →
  example_groups input_format sep_token x
    {| content := concat (map (texts input_format sep_token) x);
       labels := concat (map label_vector x) |}
  = Ok (map (fun r => aligned_group input_format sep_token r (label_vector r))
            x).
Proof.
  intros Hx. unfold example_groups. rewrite items_zip.
  - cbn [mbind result_bind]. by rewrite split_groups_aligned.
  - by rewrite length_concat_texts_aligned, length_concat_label_vector.
Qed.

(** C5 (as amended). For every file whose answer keys are in A to H and every
    mode, the construction with shuffling on runs over a permutation of the
    lines: its texts are the per-line text groups, each in choice order and
    contiguous, and its labels the per-line 8-label vectors, both in the
    permuted order. When every line contributes 8 texts, the per-line groups
    of examples are those of the unshuffled construction up to their order. *)
Theorem shuffle_permutes_groups
    (random_shuffle : list instance → list instance) (f : list instance)
    (sep_token input_format : string) :
  (∀ x, random_shuffle x ≡ₚ x) →
  Forall key_ok f →
  ∃ ds ds',
    init random_shuffle f sep_token input_format false = Ok ds ∧
    init random_shuffle f sep_token input_format true = Ok ds' ∧
    random_shuffle f ≡ₚ f ∧
    content ds = concat (map (texts input_format sep_token) f) ∧
    labels ds = concat (map label_vector f) ∧
    content ds'
    = concat (map (texts input_format sep_token) (random_shuffle f)) ∧
    labels ds' = concat (map label_vector (random_shuffle f)) ∧
    (Forall (fun r => length (texts input_format sep_token r) = 8) f →
     ∃ gs gs',
       example_groups input_format sep_token f ds = Ok gs ∧
       example_groups input_format sep_token (random_shuffle f) ds'
       = Ok gs' ∧
       gs = map (fun r => aligned_group input_format sep_token r
                            (label_vector r)) f ∧
       gs' = map (fun r => aligned_group input_format sep_token r
                             (label_vector r)) (random_shuffle f) ∧
       gs' ≡ₚ gs).
Proof.
  intros Hperm Hok.
  assert (Hok' : Forall key_ok (random_shuffle f)).
  { eapply Permutation_Forall; [symmetry; apply Hperm|done]. }
  eexists _, _.
  split; [by apply init_ok|]. split; [by apply init_ok|].
  split; [apply Hperm|]. cbn [content labels lines_read].
  do 4 (split; [reflexivity|]).
  intros H8.
  assert (H8' : Forall (fun r => length (texts input_format sep_token r) = 8)
                       (random_shuffle f)).
  { eapply Permutation_Forall; [symmetry; apply Hperm|done]. }
  eexists _, _.
  split; [by apply example_groups_aligned|].
  split; [by apply example_groups_aligned|].
  do 2 (split; [reflexivity|]).
  apply Permutation_map, Hperm.
Qed.

Lemma shuffle_permutes_groups_witness :
  ∃ gs gs',
    (ds ← init reverse [line_abcdefgh; line_ijklmnop] "</s>" "0" false;
     example_groups "0" "</s>" [line_abcdefgh; line_ijklmnop] ds) = Ok gs ∧
    (ds' ← init reverse [line_abcdefgh; line_ijklmnop] "</s>" "0" true;
     example_groups "0" "</s>" [line_ijklmnop; line_abcdefgh] ds') = Ok gs' ∧
    gs' ≡ₚ gs.
Proof.
  destruct (shuffle_permutes_groups reverse
              [line_abcdefgh; line_ijklmnop] "</s>" "0")
    as (ds & ds' & Hds & Hds' & _ & _ & _ & _ & _ & Hg).
  - intros x. apply reverse_Permutation.
  - repeat constructor.
  - destruct Hg as (gs & gs' & Hgs & Hgs' & _ & _ & Hp).
    + repeat constructor.
    + exists gs, gs'. rewrite Hds, Hds'. by repeat split.
Defined.

(** C5, counterexample. The 2-line file [line_xy; line_pq] in mode 0, its
    lines shuffled into the other order: the unshuffled construction exposes
    the groups (stem x, 0), (stem y, 1) and (stem2 p, 0), (stem2 q, 0); the
    shuffled one the groups (stem2 p, 1), (stem2 q, 0) and (stem x, 0),
    (stem y, 0), which are not the same groups in another order. *)
Lemma shuffle_changes_short_groups :
  reverse [line_xy; line_pq] ≡ₚ [line_xy; line_pq] ∧
  ∃ gs gs',
    (ds ← init reverse [line_xy; line_pq] "</s>" "0" false;
     example_groups "0" "</s>" [line_xy; line_pq] ds) = Ok gs ∧
    (ds' ← init reverse [line_xy; line_pq] "</s>" "0" true;
     example_groups "0" "</s>" (reverse [line_xy; line_pq]) ds') = Ok gs' ∧
    gs = [[("stem x", 0%Z); ("stem y", 1%Z)];
          [("stem2 p", 0%Z); ("stem2 q", 0%Z)]] ∧
    gs' = [[("stem2 p", 1%Z); ("stem2 q", 0%Z)];
           [("stem x", 0%Z); ("stem y", 0%Z)]] ∧
    ¬ (gs' ≡ₚ gs).
Proof.
  split; [apply reverse_Permutation|].
  eexists _, _. split; [reflexivity|]. split; [reflexivity|].
  split; [reflexivity|]. split; [reflexivity|].
  intros Hp.
  assert (Hin : [("stem2 p", 1%Z); ("stem2 q", 0%Z)]
                ∈ [[("stem x", 0%Z); ("stem y", 1%Z)];
                   [("stem2 p", 0%Z); ("stem2 q", 0%Z)]]).
  { rewrite <- Hp. by left. }
  rewrite !elem_of_cons, elem_of_nil in Hin.
  destruct Hin as [H|[H|[]]]; discriminate H.
Qed.

(** * Further properties of the dataset *)

Lemma init_Ok_inv (random_shuffle : list instance → list instance)
    (f : list instance) (sep_token input_format : string) (shuffle : bool)
    (ds : QASCDataset) :
  init random_shuffle f sep_token input_format shuffle = Ok ds →
  Forall key_ok (lines_read random_shuffle f shuffle) ∧
  ds = {| content := concat (map (texts input_format sep_token)
                                 (lines_read random_shuffle f shuffle));
          labels := concat (map label_vector
                                (lines_read random_shuffle f shuffle)) |}.
Proof.
  destruct (decide (Forall key_ok (lines_read random_shuffle f shuffle)))
    as [Hok|Hbad].
  - rewrite init_ok by done. by intros [= <-].
  - by rewrite init_bad.
Qed.

Lemma length_answers : length answers = 8.
Proof. reflexivity. Qed.

Lemma label_vector_ok (r : instance) :
  key_ok r →
  answer_position r < 8 ∧
  index (key r) answers = Ok (answer_position r) ∧
  label_vector r = <[answer_position r := 1%Z]> (replicate 8 0%Z).
Proof.
  intros [i Hi]%index_elem. unfold answer_position, label_vector.
  rewrite Hi. split; [|done].
  apply index_Ok, lookup_lt_Some in Hi. by rewrite length_answers in Hi.
Qed.

(** A one-hot vector of 8 labels: its entries, its number of ones and the
    position [argmax] finds. *)
Lemma one_hot_vector_facts (i : nat) :
  i < 8 →
  Forall (fun v => v = 0%Z ∨ v = 1%Z) (<[i := 1%Z]> (replicate 8 0%Z)) ∧
  length (filter (fun v => v = 1%Z) (<[i := 1%Z]> (replicate 8 0%Z))) = 1 ∧
  argmax (<[i := 1%Z]> (replicate 8 0%Z)) = Ok i.
Proof.
  intros Hi.
  destruct i as [|[|[|[|[|[|[|[|i]]]]]]]]; [..|lia];
    (split; [|by split]); cbn;
    repeat (apply Forall_cons; split; [first [by left|by right]|]);
    by apply Forall_nil.
Qed.

Lemma length_texts_at_most (input_format sep_token : string) (r : instance) :
  length (texts input_format sep_token r) ≤ length (choices r).
Proof. unfold texts. repeat case_match; rewrite ?length_map; simpl; lia. Qed.

Lemma length_concat_texts_at_most (input_format sep_token : string)
    (x : list instance) :
  Forall (fun r => length (choices r) ≤ 8) x →
  length (concat (map (texts input_format sep_token) x)) ≤ 8 * length x.
Proof.
  induction 1 as [|r x Hr Hx IH]; [done|].
  cbn [map concat]. rewrite length_app.
  pose proof (length_texts_at_most input_format sep_token r).
  simpl. lia.
Qed.

(** X1. In every dataset the construction returns, the labels are 8 per line
    read, each label is 0 or 1, and the labels equal to 1 are as many as the
    lines. *)
Theorem labels_eight_per_line
    (random_shuffle : list instance → list instance) (f : list instance)
    (sep_token input_format : string) (shuffle : bool) (ds : QASCDataset) :
  init random_shuffle f sep_token input_format shuffle = Ok ds →
  length (labels ds) = 8 * length (lines_read random_shuffle f shuffle) ∧
  Forall (fun v => v = 0%Z ∨ v = 1%Z) (labels ds) ∧
  length (filter (fun v => v = 1%Z) (labels ds))
  = length (lines_read random_shuffle f shuffle).
Proof.
  intros [Hok ->]%init_Ok_inv. cbn [labels].
  split; [apply length_concat_label_vector|].
  induction Hok as [|r x Hr Hx [IH1 IH2]]; [by split|].
  destruct (label_vector_ok r Hr) as (Hlt & _ & Hv).
  destruct (one_hot_vector_facts _ Hlt) as (H01 & Hone & _).
  cbn [map concat]. rewrite Hv. split.
  - apply Forall_app. by split.
  - rewrite filter_app, length_app, Hone, IH2. reflexivity.
Qed.

Lemma labels_eight_per_line_witness :
  ∃ ds, init reverse [line_xy; line_key_D; line_nine] "</s>" "7" true = Ok ds ∧
        length (labels ds) = 24 ∧
        Forall (fun v => v = 0%Z ∨ v = 1%Z) (labels ds) ∧
        length (filter (fun v => v = 1%Z) (labels ds)) = 3.
Proof.
  eexists. split; [reflexivity|].
  apply (labels_eight_per_line reverse [line_xy; line_key_D; line_nine]
           "</s>" "7" true).
  reflexivity.
Defined.

Lemma length_concat_map {A B} (g : A → list B) (x : list A) :
  length (concat (map g x)) = sum_list_with (fun a => length (g a)) x.
Proof.
  induction x as [|a x IH]; [done|].
  cbn [map concat sum_list_with]. by rewrite length_app, IH.
Qed.

Lemma sum_length_texts (input_format sep_token : string) (x : list instance) :
  input_format ∈ ["0"; "1"; "2"] →
  sum_list_with (fun r => length (texts input_format sep_token r)) x
  = sum_list_with (fun r => length (choices r)) x.
Proof.
  intros Hfmt. induction x as [|r x IH]; [done|].
  simpl. by rewrite IH, length_texts.
Qed.

(** X2. In modes 0, 1, 2 the length the dataset reports is the total number
    of choices of the lines of the file, with or without shuffling. *)
Theorem len_is_total_number_of_choices
    (random_shuffle : list instance → list instance) (f : list instance)
    (sep_token input_format : string) (shuffle : bool) (ds : QASCDataset) :
  input_format ∈ ["0"; "1"; "2"] →
  (∀ x, random_shuffle x ≡ₚ x) →
  init random_shuffle f sep_token input_format shuffle = Ok ds →
  len ds = sum_list_with (fun r => length (choices r)) f.
Proof.
  intros Hfmt Hperm [_ ->]%init_Ok_inv. unfold len. cbn [content].
  rewrite length_concat_map.
  assert (Hx : lines_read random_shuffle f shuffle ≡ₚ f).
  { unfold lines_read. destruct shuffle; [apply Hperm|done]. }
  rewrite <- (sum_list_with_Permutation_proper _ _ _ Hx).
  by apply sum_length_texts.
Qed.

Lemma len_is_total_number_of_choices_witness :
  ∃ ds, init reverse [line_xy; line_nine; line_pq] "</s>" "2" true = Ok ds ∧
        len ds = 13.
Proof.
  eexists. split; [reflexivity|].
  apply (len_is_total_number_of_choices reverse
           [line_xy; line_nine; line_pq] "</s>" "2" true).
  - rewrite !elem_of_cons. tauto.
  - intros x. apply reverse_Permutation.
  - reflexivity.
Defined.

(** X3. Indexed access into a constructed dataset succeeds exactly below both
    the number of texts and 8 times the number of lines, and raises
    [IndexError] everywhere else, also at an index below the reported length
    when the lines before it have more than 8 choices on average. When every
    line has at most 8 choices, every index below the length is readable. *)
Theorem getitem_bounds
    (random_shuffle : list instance → list instance) (f : list instance)
    (sep_token input_format : string) (shuffle : bool) (ds : QASCDataset) :
  init random_shuffle f sep_token input_format shuffle = Ok ds →
  (∀ i, i < len ds →
        i < 8 * length (lines_read random_shuffle f shuffle) →
        ∃ t v, getitem ds i = Ok (t, v) ∧
               content ds !! i = Some t ∧ labels ds !! i = Some v) ∧
  (∀ i, len ds ≤ i ∨ 8 * length (lines_read random_shuffle f shuffle) ≤ i →
        getitem ds i = Raise IndexError) ∧
  (Forall (fun r => length (choices r) ≤ 8)
          (lines_read random_shuffle f shuffle) →
   len ds ≤ 8 * length (lines_read random_shuffle f shuffle)).
Proof.
  intros Hds. apply init_Ok_inv in Hds as [_ Hds].
  assert (Hlen : length (labels ds)
                 = 8 * length (lines_read random_shuffle f shuffle)).
  { rewrite Hds. apply length_concat_label_vector. }
  split; [|split].
  - intros i Hi1 Hi2. unfold len in Hi1.
    destruct (lookup_lt_is_Some_2 (content ds) i Hi1) as [t Ht].
    destruct (lookup_lt_is_Some_2 (labels ds) i) as [v Hv]; [lia|].
    exists t, v. unfold getitem, subscript. by rewrite Ht, Hv.
  - intros i Hi. unfold getitem, subscript.
    destruct (content ds !! i) as [t|] eqn:Ht; [|done].
    cbn [mbind result_bind].
    destruct (labels ds !! i) as [v|] eqn:Hv; [|done].
    apply lookup_lt_Some in Ht, Hv. unfold len in Hi. lia.
  - intros Hle. rewrite Hds. unfold len. cbn [content].
    by apply length_concat_texts_at_most.
Qed.

Lemma getitem_bounds_witness :
  ∃ ds, init id [line_nine] "</s>" "0" false = Ok ds ∧
        len ds = 9 ∧
        (∃ t v, getitem ds 7 = Ok (t, v) ∧
                content ds !! 7 = Some t ∧ labels ds !! 7 = Some v) ∧
        getitem ds 8 = Raise IndexError.
Proof.
  eexists. split; [reflexivity|]. split; [reflexivity|].
  destruct (getitem_bounds id [line_nine] "</s>" "0" false _ eq_refl)
    as (Hin & Hout & _).
  split.
  - apply Hin; unfold len; simpl; lia.
  - apply Hout. right. simpl. lia.
Defined.

(** ** Labels back to answer positions *)

Lemma rows_concat (n : nat) (vs : list (list Z)) :
  Forall (fun v => length v = n) vs →
  rows (length vs) n (concat vs) = vs.
Proof.
  induction 1 as [|v vs Hv Hvs IH]; [done|].
  cbn [length rows concat].
  rewrite take_app_length' by done. rewrite drop_app_length' by done.
  by rewrite IH.
Qed.

Lemma reshape_concat (vs : list (list Z)) :
  Forall (fun v => length v = 8) vs →
  reshape (concat vs) num_choices = Ok vs.
Proof.
  intros Hvs. unfold reshape, num_choices. cbn [Nat.eqb].
  assert (Hlen : length (concat vs) = length vs * 8).
  { induction Hvs as [|v vs Hv _ IH]; [done|].
    cbn [concat length]. rewrite length_app, Hv, IH. lia. }
  rewrite Hlen, Nat.Div0.mod_mul, Nat.div_mul by done. cbn [Nat.eqb].
  by rewrite rows_concat.
Qed.

Lemma argmax_label_vectors (x : list instance) :
  Forall key_ok x →
  for_list argmax (map label_vector x) = Ok (map answer_position x).
Proof.
  induction 1 as [|r x Hr Hx IH]; [done|].
  cbn [map for_list]. rewrite IH.
  destruct (label_vector_ok r Hr) as (Hlt & _ & ->).
  destruct (one_hot_vector_facts _ Hlt) as (_ & _ & ->). done.
Qed.

Lemma decode_labels
    (random_shuffle : list instance → list instance) (f : list instance)
    (sep_token input_format : string) (shuffle : bool) (ds : QASCDataset) :
  init random_shuffle f sep_token input_format shuffle = Ok ds →
  instance_labels (labels ds)
  = Ok (map answer_position (lines_read random_shuffle f shuffle)) ∧
  Forall (fun r => index (key r) answers = Ok (answer_position r))
         (lines_read random_shuffle f shuffle).
Proof.
  intros [Hok ->]%init_Ok_inv. cbn [labels]. split.
  - unfold instance_labels. rewrite reshape_concat.
    + cbn [mbind result_bind]. by apply argmax_label_vectors.
    + apply Forall_map, Forall_forall. intros r _. apply length_label_vector.
  - eapply Forall_impl; [exact Hok|]. intros r Hr.
    by destruct (label_vector_ok r Hr) as (_ & ? & _).
Qed.

Lemma unlabelled_vectors (x : list instance) :
  Forall (fun r => answerKey r = None) x →
  map label_vector x = replicate (length x) [1; 0; 0; 0; 0; 0; 0; 0]%Z ∧
  map answer_position x = replicate (length x) 0.
Proof.
  induction 1 as [|r x Hr _ [IH1 IH2]]; [done|].
  cbn [map length replicate]. rewrite IH1, IH2.
  unfold label_vector, answer_position, key. by rewrite Hr.
Qed.

(** X5. A file in which no line has an answer key (held-out test data) is
    always constructed without failure, and every line gets the labels of
    answer A. *)
Theorem unlabelled_file_is_all_A
    (random_shuffle : list instance → list instance) (f : list instance)
    (sep_token input_format : string) (shuffle : bool) :
  (∀ x, random_shuffle x ≡ₚ x) →
  Forall (fun r => answerKey r = None) f →
  ∃ ds, init random_shuffle f sep_token input_format shuffle = Ok ds ∧
        labels ds
        = concat (replicate (length f) [1; 0; 0; 0; 0; 0; 0; 0]%Z).
Proof.
  intros Hperm Hnone.
  assert (Hx : lines_read random_shuffle f shuffle ≡ₚ f).
  { unfold lines_read. destruct shuffle; [apply Hperm|done]. }
  assert (Hnone' : Forall (fun r => answerKey r = None)
                          (lines_read random_shuffle f shuffle)).
  { eapply Permutation_Forall; [symmetry; exact Hx|done]. }
  assert (Hok : Forall key_ok (lines_read random_shuffle f shuffle)).
  { eapply Forall_impl; [exact Hnone'|]. intros r Hr.
    unfold key_ok, key. rewrite Hr. by left. }
  eexists. split; [by apply init_ok|].
  rewrite <- (Permutation_length Hx).
  destruct (unlabelled_vectors _ Hnone') as [Hvec _].
  cbn [labels]. by rewrite Hvec.
Qed.

Lemma unlabelled_file_is_all_A_witness :
  ∃ ds, init reverse [line_unlabelled; line_yx] "</s>" "1" true = Ok ds ∧
        labels ds = concat (replicate 2 [1; 0; 0; 0; 0; 0; 0; 0]%Z).
Proof.
  apply (unlabelled_file_is_all_A reverse [line_unlabelled; line_yx]
           "</s>" "1" true).
  - intros x. apply reverse_Permutation.
  - by repeat constructor.
Defined.

(** ** Letters of the predictions *)

Lemma mapper_lookup_ge (i : nat) : 8 ≤ i → mapper !! i = None.
Proof.
  intros Hi. unfold mapper. cbn [list_to_map foldr uncurry fst snd].
  rewrite !lookup_insert_ne by lia. apply lookup_empty.
Qed.

Lemma mapper_lookup_answers (i : nat) : i < 8 → mapper !! i = answers !! i.
Proof.
  intros Hi.
  destruct i as [|[|[|[|[|[|[|[|i]]]]]]]]; [reflexivity..|lia].
Qed.

Lemma index_answers_lookup (i : nat) (l : string) :
  answers !! i = Some l → index l answers = Ok i.
Proof.
  intros Hl. assert (Hi : i < 8).
  { apply lookup_lt_Some in Hl. by rewrite length_answers in Hl. }
  destruct i as [|[|[|[|[|[|[|[|i]]]]]]]]; [..|lia];
    injection Hl as <-; reflexivity.
Qed.

Lemma mapper_index (i : nat) (l : string) :
  mapper !! i = Some l ↔ index l answers = Ok i.
Proof.
  split.
  - intros Hm. destruct (decide (i < 8)) as [Hi|Hi].
    + rewrite mapper_lookup_answers in Hm by done.
      by apply index_answers_lookup.
    + rewrite mapper_lookup_ge in Hm by lia. done.
  - intros Hi. apply index_Ok in Hi.
    rewrite mapper_lookup_answers; [done|].
    apply lookup_lt_Some in Hi. by rewrite length_answers in Hi.
Qed.

Lemma letters_Some (instance_preds : list nat) (ls : list string) :
  instance_preds_ instance_preds = Some ls
  ↔ Forall2 (fun p l => index l answers = Ok p) instance_preds ls.
Proof.
  unfold instance_preds_. rewrite mapM_Some. split; intros H;
    (eapply Forall2_impl; [exact H|]); intros p l Hpl;
    cbv beta in Hpl |- *; by apply mapper_index.
Qed.

(** X6. The letters of the test predictions invert the label encoding: the
    list of letters is produced exactly when it is, position by position,
    the letter whose index in A to H is the prediction; the lookup fails
    (a missing key) exactly when some prediction is 8 or more. *)
Theorem prediction_letters_invert_index (instance_preds : list nat) :
  (∀ ls, instance_preds_ instance_preds = Some ls
         ↔ Forall2 (fun p l => index l answers = Ok p) instance_preds ls) ∧
  (instance_preds_ instance_preds = None
   ↔ Exists (fun p => 8 ≤ p) instance_preds).
Proof.
  split; [apply letters_Some|].
  unfold instance_preds_.
  - rewrite mapM_None. split; intros H;
      (eapply Exists_impl; [exact H|]); intros p Hp; cbv beta in Hp |- *.
    + destruct (decide (8 ≤ p)) as [|Hlt]; [done|exfalso].
      rewrite mapper_lookup_answers in Hp by lia.
      apply lookup_ge_None in Hp. rewrite length_answers in Hp. lia.
    + by apply mapper_lookup_ge.
Qed.

(** ** Batches of an unshuffled loader *)

Lemma slices_concat (fuel n : nat) (l : list nat) :
  0 < n → length l ≤ fuel → concat (slices fuel n l) = l.
Proof.
  intros Hn. revert l. induction fuel as [|fuel IH]; intros l Hl.
  - destruct l; [done|simpl in Hl; lia].
  - destruct l as [|a l]; [done|].
    cbn [slices concat]. rewrite IH.
    + apply take_drop.
    + rewrite length_drop. simpl in *. lia.
Qed.

Lemma slices_sizes (fuel n : nat) (l : list nat) :
  0 < n → Forall (fun s => 0 < length s ≤ n) (slices fuel n l).
Proof.
  intros Hn. revert l. induction fuel as [|fuel IH]; intros l; [constructor|].
  destruct l as [|a l]; [constructor|].
  cbn [slices]. constructor; [|apply IH].
  rewrite length_take. simpl. lia.
Qed.

(** Slices of a size that [k] divides, out of a list whose length [k]
    divides, have lengths that [k] divides. *)
Lemma slices_multiples (k fuel n : nat) (l : list nat) :
  (∃ q, n = k * q) → (∃ q, length l = k * q) →
  Forall (fun s => ∃ q, length s = k * q) (slices fuel n l).
Proof.
  intros [qn ->]. revert l.
  induction fuel as [|fuel IH]; intros l [ql Hl]; [constructor|].
  destruct l as [|a l]; [constructor|].
  cbn [slices]. constructor.
  - rewrite length_take, Hl.
    destruct (Nat.le_ge_cases (k * qn) (k * ql)).
    + exists qn. lia.
    + exists ql. lia.
  - apply IH. rewrite length_drop, Hl. exists (ql - qn). nia.
Qed.

Lemma for_list_app {A B} (f : A → result B) (xs ys : list A) :
  for_list f (xs ++ ys)
  = (bs ← for_list f xs; cs ← for_list f ys; Ok (bs ++ cs)).
Proof.
  induction xs as [|a xs IH]; cbn [app for_list].
  - by destruct (for_list f ys).
  - destruct (f a); cbn [mbind result_bind]; [|done]. rewrite IH.
    destruct (for_list f xs); cbn [mbind result_bind]; [|done].
    by destruct (for_list f ys).
Qed.

Lemma for_list_length {A B} (f : A → result B) (xs : list A) (bs : list B) :
  for_list f xs = Ok bs → length bs = length xs.
Proof.
  revert bs. induction xs as [|a xs IH]; intros bs; cbn [for_list].
  - by intros [= <-].
  - destruct (f a); cbn [mbind result_bind]; [|done].
    destruct (for_list f xs); cbn [mbind result_bind]; [|done].
    intros [= <-]. simpl. f_equal. by apply IH.
Qed.

(** Reading a list of index lists block by block reads what one pass over
    all the indices reads. *)
Lemma for_list_concat {A B} (f : A → result B) (ls : list (list A))
    (ys : list B) :
  for_list f (concat ls) = Ok ys →
  ∃ yss, for_list (for_list f) ls = Ok yss ∧ concat yss = ys ∧
         Forall2 (fun l y => length y = length l) ls yss.
Proof.
  revert ys. induction ls as [|l ls IH]; intros ys.
  - intros [= <-]. by exists [].
  - cbn [concat for_list]. rewrite for_list_app.
    destruct (for_list f l) as [y|] eqn:El; cbn [mbind result_bind]; [|done].
    destruct (for_list f (concat ls)) as [ys'|] eqn:Els;
      cbn [mbind result_bind]; [|done].
    intros [= <-]. destruct (IH ys' eq_refl) as (yss & -> & <- & Hlen).
    exists (y :: yss). cbn [mbind result_bind concat].
    split; [done|]. split; [done|]. constructor; [|done].
    by eapply for_list_length.
Qed.

Lemma for_list_then_map {A B C} (f : A → result B) (g : B → C)
    (xs : list A) :
  for_list (fun a => b ← f a; Ok (g b)) xs
  = (bs ← for_list f xs; Ok (map g bs)).
Proof.
  induction xs as [|a xs IH]; [done|].
  cbn [for_list]. rewrite IH.
  destruct (f a); cbn [mbind result_bind]; [|done].
  by destruct (for_list f xs).
Qed.

Lemma concat_columns (yss : list (list (string * Z))) :
  concat ((collate_fn <$> yss).*1) = (concat yss).*1 ∧
  concat ((collate_fn <$> yss).*2) = (concat yss).*2.
Proof.
  induction yss as [|y yss [IH1 IH2]]; [done|].
  cbn [fmap list_fmap concat collate_fn fst snd].
  rewrite !fmap_app.
  change (list_fmap _ _ collate_fn yss) with (collate_fn <$> yss).
  split; f_equal; [apply IH1|apply IH2].
Qed.

(** The batches of a loader that does not shuffle. *)
Lemma unshuffled_batches (sampler : list nat) (dl : DataLoader) :
  dl_shuffle dl = false →
  0 < batch_size dl →
  length (content (dataset dl)) ≤ length (labels (dataset dl)) →
  ∃ yss,
    batches sampler dl = Ok (collate_fn <$> yss) ∧
    concat yss = zip (content (dataset dl)) (labels (dataset dl)) ∧
    Forall2 (fun l y => length y = length l)
      (slices (len (dataset dl)) (batch_size dl) (seq 0 (len (dataset dl))))
      yss.
Proof.
  intros Hsh Hbs Hle. unfold batches. rewrite Hsh.
  destruct (Nat.eqb_spec (batch_size dl) 0) as [|_]; [lia|].
  rewrite length_seq, for_list_then_map.
  destruct (for_list_concat (getitem (dataset dl))
              (slices (len (dataset dl)) (batch_size dl)
                      (seq 0 (len (dataset dl))))
              (zip (content (dataset dl)) (labels (dataset dl))))
    as (yss & Hyss & Hcat & Hlen).
  - rewrite slices_concat by (rewrite ?length_seq; lia).
    destruct (dataset dl) as [c l]. by apply items_zip.
  - exists yss. by rewrite Hyss.
Qed.

(** X8. A loader that does not shuffle, with a positive batch size, over a
    dataset that has at least as many labels as texts, loses nothing and
    keeps the order: the texts of its batches put end to end are the texts
    of the dataset, the labels put end to end are the first [len] labels of
    the dataset (labels beyond the number of texts are never read), every
    batch is non-empty, no larger than the batch size, and has as many
    labels as texts. *)
Theorem unshuffled_batches_cover_dataset (sampler : list nat)
    (dl : DataLoader) :
  dl_shuffle dl = false →
  0 < batch_size dl →
  length (content (dataset dl)) ≤ length (labels (dataset dl)) →
  ∃ bs, batches sampler dl = Ok bs ∧
        flatten (bs.*1) = content (dataset dl) ∧
        flatten (bs.*2) = take (len (dataset dl)) (labels (dataset dl)) ∧
        Forall (fun b => 0 < length b.1 ≤ batch_size dl ∧
                         length b.2 = length b.1) bs.
Proof.
  intros Hsh Hbs Hle.
  destruct (unshuffled_batches sampler dl Hsh Hbs Hle)
    as (yss & Hb & Hcat & Hlen).
  exists (collate_fn <$> yss). split; [done|].
  destruct (concat_columns yss) as [H1 H2]. unfold flatten.
  rewrite H1, H2, Hcat. split; [by apply fst_zip|]. split.
  - unfold len.
    rewrite <- (zip_with_take_r pair (content (dataset dl))
                  (labels (dataset dl))).
    apply snd_zip. rewrite length_take. lia.
  - pose proof (slices_sizes (len (dataset dl)) (batch_size dl)
                  (seq 0 (len (dataset dl))) Hbs) as Hsz.
    apply Forall_fmap.
    revert Hsz Hlen. generalize (slices (len (dataset dl)) (batch_size dl)
                                   (seq 0 (len (dataset dl)))).
    intros sl Hsz Hlen. clear -Hsz Hlen.
    induction Hlen as [|l y sl yss Hy _ IH]; [constructor|].
    apply Forall_cons in Hsz as [Hl Hsz].
    constructor; [|by apply IH].
    cbn [collate_fn fst snd compose]. rewrite !length_fmap. lia.
Qed.

Lemma unshuffled_batches_cover_dataset_witness :
  ∃ bs, batches [] {| dataset := {| content := ["a"; "b"; "c"];
                                    labels := [0; 1; 0; 0; 0; 0; 0; 0]%Z |};
                      dl_shuffle := false; batch_size := 2 |} = Ok bs ∧
        flatten (bs.*1) = ["a"; "b"; "c"] ∧
        flatten (bs.*2) = [0; 1; 0]%Z ∧
        Forall (fun b => 0 < length b.1 ≤ 2 ∧ length b.2 = length b.1) bs.
Proof.
  apply (unshuffled_batches_cover_dataset []
           {| dataset := {| content := ["a"; "b"; "c"];
                            labels := [0; 1; 0; 0; 0; 0; 0; 0]%Z |};
              dl_shuffle := false; batch_size := 2 |}).
  - reflexivity.
  - simpl. lia.
  - simpl. lia.
Defined.

(** ** The validation loader over a file of 8-choice questions *)

Lemma configure_dataloaders_inv
    (random_shuffle : list instance → list instance) (fs : files)
    (sep_token : string) (train_batch_size eval_batch_size : nat)
    (shuffle : bool) (input_format : string)
    (train_loader val_loader test_loader : DataLoader) :
  configure_dataloaders random_shuffle fs sep_token train_batch_size
    eval_batch_size shuffle input_format
  = Ok (train_loader, val_loader, test_loader) →
  (init random_shuffle (train_jsonl fs) sep_token input_format true
   = Ok (dataset train_loader) ∧
   dl_shuffle train_loader = shuffle ∧
   batch_size train_loader = train_batch_size) ∧
  (init random_shuffle (dev_jsonl fs) sep_token input_format false
   = Ok (dataset val_loader) ∧
   dl_shuffle val_loader = false ∧
   batch_size val_loader = eval_batch_size) ∧
  (init random_shuffle (test_jsonl fs) sep_token input_format false
   = Ok (dataset test_loader) ∧
   dl_shuffle test_loader = false ∧
   batch_size test_loader = eval_batch_size).
Proof.
  unfold configure_dataloaders. intros H.
  destruct (init _ (train_jsonl fs) _ _ true) as [dtr|]; [|done].
  cbn [mbind result_bind] in H.
  destruct (new_DataLoader dtr shuffle train_batch_size) as [ltr|] eqn:Ltr;
    [|done].
  destruct (init _ (dev_jsonl fs) _ _ false) as [dva|]; [|done].
  cbn [mbind result_bind] in H.
  destruct (new_DataLoader dva false eval_batch_size) as [lva|] eqn:Lva;
    [|done].
  destruct (init _ (test_jsonl fs) _ _ false) as [dte|]; [|done].
  cbn [mbind result_bind] in H.
  destruct (new_DataLoader dte false eval_batch_size) as [lte|] eqn:Lte;
    [|done].
  cbn [mbind result_bind] in H. injection H as <- <- <-.
  apply new_DataLoader_Ok in Ltr as (-> & -> & -> & _).
  apply new_DataLoader_Ok in Lva as (-> & -> & -> & _).
  apply new_DataLoader_Ok in Lte as (-> & -> & -> & _).
  done.
Qed.

Lemma texts_eight (input_format sep_token : string) (x : list instance) :
  input_format ∈ ["0"; "1"; "2"] →
  Forall (fun r => length (choices r) = 8) x →
  Forall (fun r => length (texts input_format sep_token r) = 8) x.
Proof.
  intros Hfmt Hx. eapply Forall_impl; [exact Hx|].
  intros r Hr. by rewrite length_texts.
Qed.

(** X9. With an evaluation batch size that is a positive multiple of 8 (what
    the program asserts), a format mode among 0, 1, 2 and a validation file
    whose lines all have 8 choices, the validation loader yields batches of
    whole questions: the number of labels of every batch is a multiple of 8,
    and the instance labels decoded from the labels of all the batches are
    the answer positions of the lines of the file, in file order. *)
Theorem validation_batches_hold_whole_questions
    (random_shuffle : list instance → list instance) (fs : files)
    (sep_token : string) (train_batch_size eval_batch_size : nat)
    (shuffle : bool) (input_format : string)
    (train_loader val_loader test_loader : DataLoader)
    (sampler : list nat) (m : nat) :
  configure_dataloaders random_shuffle fs sep_token train_batch_size
    eval_batch_size shuffle input_format
  = Ok (train_loader, val_loader, test_loader) →
  input_format ∈ ["0"; "1"; "2"] →
  Forall (fun r => length (choices r) = 8) (dev_jsonl fs) →
  eval_batch_size = 8 * m → 0 < m →
  ∃ bs, batches sampler val_loader = Ok bs ∧
        Forall (fun b => ∃ q, length b.2 = 8 * q) bs ∧
        instance_labels (flatten (bs.*2))
        = Ok (map answer_position (dev_jsonl fs)).
Proof.
  intros Hcfg Hfmt H8 Heb Hm.
  apply configure_dataloaders_inv in Hcfg as (_ & (Hva & Hsh & Hbs) & _).
  pose proof (decode_labels _ _ _ _ _ _ Hva) as [Hdec _].
  pose proof Hva as [_ Hds]%init_Ok_inv. cbn [lines_read] in Hds, Hdec.
  assert (Hc : length (content (dataset val_loader))
               = 8 * length (dev_jsonl fs)).
  { rewrite Hds. cbn [content].
    by apply length_concat_texts_aligned, texts_eight. }
  assert (Hl : length (labels (dataset val_loader))
               = 8 * length (dev_jsonl fs)).
  { rewrite Hds. cbn [labels]. apply length_concat_label_vector. }
  destruct (unshuffled_batches sampler val_loader Hsh) as (yss & Hb & Hcat & Hlen);
    [lia..|].
  exists (collate_fn <$> yss). split; [done|]. split.
  - pose proof (slices_multiples 8 (len (dataset val_loader))
                  (batch_size val_loader)
                  (seq 0 (len (dataset val_loader)))) as Hmul.
    apply Forall_fmap.
    assert (Hsl : Forall (fun s => ∃ q, length s = 8 * q)
                    (slices (len (dataset val_loader))
                       (batch_size val_loader)
                       (seq 0 (len (dataset val_loader))))).
    { apply Hmul; [exists m; lia|].
      exists (length (dev_jsonl fs)). rewrite length_seq. exact Hc. }
    clear -Hsl Hlen.
    induction Hlen as [|l y sl yss Hy _ IH]; [constructor|].
    apply Forall_cons in Hsl as [[q Hq] Hsl].
    constructor; [|by apply IH].
    exists q. cbn [collate_fn snd compose]. rewrite length_fmap. lia.
  - destruct (concat_columns yss) as [_ H2]. unfold flatten.
    rewrite H2, Hcat, snd_zip by lia. exact Hdec.
Qed.

Lemma validation_batches_hold_whole_questions_witness :
  ∃ train_loader val_loader test_loader bs,
    configure_dataloaders reverse
      {| train_jsonl := [line_xy];
         dev_jsonl := [line_abcdefgh; line_ijklmnop; line_unlabelled];
         test_jsonl := [] |} "</s>" 3 16 true "1"
    = Ok (train_loader, val_loader, test_loader) ∧
    batches [] val_loader = Ok bs ∧
    Forall (fun b => ∃ q, length b.2 = 8 * q) bs ∧
    instance_labels (flatten (bs.*2)) = Ok [2; 0; 0].
Proof.
  eexists _, _, _.
  destruct (validation_batches_hold_whole_questions reverse
              {| train_jsonl := [line_xy];
                 dev_jsonl := [line_abcdefgh; line_ijklmnop; line_unlabelled];
                 test_jsonl := [] |} "</s>" 3 16 true "1" _ _ _ [] 2 eq_refl)
    as (bs & Hb & Hq & Hi).
  - rewrite !elem_of_cons. tauto.
  - by repeat constructor.
  - reflexivity.
  - lia.
  - exists bs. by repeat split.
Defined.

(** ** Substrings and the parameter groups *)

Lemma startswith_spec (p s : string) :
  startswith p s = true ↔ ∃ b, s = p +:+ b.
Proof.
  revert s. induction p as [|a p IH]; intros s.
  - split; [by exists s|done].
  - destruct s as [|c s]; cbn [startswith].
    + split; [done|]. by intros [b Hb].
    + rewrite andb_true_iff, IH. split.
      * intros [->%Ascii.eqb_eq [b ->]]. by exists b.
      * intros [b [= -> ->]]. split; [apply Ascii.eqb_refl|by exists b].
Qed.

(** [nd in n] holds exactly when [n] is some string, then [nd], then some
    string. *)
Lemma contains_spec (nd n : string) :
  contains nd n = true ↔ ∃ a b, n = a +:+ nd +:+ b.
Proof.
  induction n as [|c n IH].
  - cbn [contains]. rewrite orb_false_r, startswith_spec. split.
    + intros [b Hb]. by exists "", b.
    + intros (a & b & Hab). destruct a; [by exists b|done].
  - cbn [contains]. rewrite orb_true_iff, startswith_spec, IH. split.
    + intros [[b Hb]|(a & b & ->)].
      * by exists "", b.
      * by exists (String c a), b.
    + intros (a & b & Hab). destruct a as [|c' a].
      * left. by exists b.
      * right. injection Hab as -> ->. by exists a, b.
Qed.

Lemma any_no_decay_spec (n : string) :
  any_no_decay n = true ↔ no_decay_name n.
Proof.
  unfold any_no_decay, no_decay_name, no_decay. cbn [existsb].
  rewrite orb_false_r, orb_true_iff, !contains_spec. done.
Qed.

(** X10. The optimizer gets exactly two parameter groups, the first with the
    configured weight decay and the second with weight decay 0, and the two
    groups split the parameters of the model: every parameter is in one of
    them, none is duplicated or dropped, and each group keeps the model's
    order. *)
Theorem parameter_groups_partition {P : Type}
    (named_parameters : list (string * P)) (wd : Q) :
  ∃ g1 g2,
    optimizer_grouped_parameters named_parameters wd = [g1; g2] ∧
    weight_decay g1 = wd ∧ weight_decay g2 = 0%Q ∧
    params g1 ++ params g2 ≡ₚ named_parameters.*2 ∧
    params g1 `sublist_of` named_parameters.*2 ∧
    params g2 `sublist_of` named_parameters.*2.
Proof.
  eexists _, _. split; [reflexivity|]. cbn [params weight_decay].
  split; [done|]. split; [done|]. split; [|split].
  - rewrite <- fmap_app. apply fmap_Permutation.
    induction named_parameters as [|[n p] l IH]; [done|].
    rewrite !filter_cons. cbn [fst].
    destruct (any_no_decay n); cbn.
    + rewrite decide_False, decide_True by done.
      rewrite <- Permutation_middle. by f_equiv.
    + rewrite decide_True, decide_False by done. cbn. by f_equiv.
  - apply fmap_sublist, sublist_filter.
  - apply fmap_sublist, sublist_filter.
Qed.

(** X11. A parameter is in the group without weight decay exactly when it is
    the parameter of a name that has "bias" or "LayerNorm.weight" somewhere
    inside, and in the group with weight decay exactly when it is the
    parameter of a name that has neither. *)
Theorem parameter_group_by_name {P : Type}
    (named_parameters : list (string * P)) (wd : Q) (p : P) :
  ∃ g1 g2,
    optimizer_grouped_parameters named_parameters wd = [g1; g2] ∧
    (p ∈ params g1
     ↔ ∃ n, (n, p) ∈ named_parameters ∧ ¬ no_decay_name n) ∧
    (p ∈ params g2
     ↔ ∃ n, (n, p) ∈ named_parameters ∧ no_decay_name n).
Proof.
  eexists _, _. split; [reflexivity|]. cbn [params].
  split; rewrite list_elem_of_fmap; split.
  - intros ([n p'] & -> & [Hn Hin]%list_elem_of_filter). cbn [fst snd] in *.
    exists n. split; [done|]. rewrite <- any_no_decay_spec. by rewrite Hn.
  - intros (n & Hin & Hn). exists (n, p). split; [done|].
    apply list_elem_of_filter. split; [|done]. cbn [fst].
    rewrite <- any_no_decay_spec in Hn. by destruct (any_no_decay n).
  - intros ([n p'] & -> & [Hn Hin]%list_elem_of_filter). cbn [fst snd] in *.
    exists n. split; [done|]. by apply any_no_decay_spec.
  - intros (n & Hin & Hn). exists (n, p). split; [done|].
    apply list_elem_of_filter. split; [|done]. cbn [fst].
    by apply any_no_decay_spec.
Qed.

(** ** Names derived from the model name *)

Lemma contains_slash_cons (c : Ascii.ascii) (n : string) :
  contains "/" (String c n) = Ascii.eqb "/"%char c || contains "/" n.
Proof.
  cbn [contains startswith]. destruct n; by rewrite andb_true_r.
Qed.

Lemma sp_with_slash (name : string) :
  contains "/" name = true →
  ∃ a b, name = a +:+ "/" +:+ b ∧ contains "/" a = false ∧
         (i ← index_char "/"%char name; Ok (slice_from (i + 1) name)) = Ok b.
Proof.
  induction name as [|c n IH]; [done|].
  rewrite contains_slash_cons. cbn [index_char].
  rewrite (Ascii.eqb_sym c). destruct (Ascii.eqb_spec "/"%char c) as [<-|Hc].
  - intros _. by exists "", n.
  - cbn [orb]. intros (a & b & -> & Ha & Hi)%IH.
    exists (String c a), b. split; [done|]. split.
    + rewrite contains_slash_cons, Ha.
      by destruct (Ascii.eqb_spec "/"%char c).
    + destruct (index_char "/"%char (a +:+ "/" +:+ b)) as [i|]; [|done].
      cbn [mbind result_bind] in *.
      replace (S i + 1) with (S (i + 1)) by lia. exact Hi.
Qed.

(** X12. The project-name suffix is always produced: for a model name
    without a slash it is the name itself, otherwise it is what follows the
    first slash of the name. *)
Theorem sp_is_after_first_slash (name : string) :
  ∃ s, sp name = Ok s ∧
       ((contains "/" name = false ∧ s = name) ∨
        (∃ a, name = a +:+ "/" +:+ s ∧ contains "/" a = false)).
Proof.
  unfold sp. destruct (contains "/" name) eqn:Hc.
  - destruct (sp_with_slash name Hc) as (a & b & Hn & Ha & Hi).
    exists b. split; [exact Hi|]. right. by exists a.
  - exists name. split; [done|]. by left.
Qed.

Example sp_of_org_model :
  sp "org/team/model" = Ok "team/model" ∧ sp "roberta-large" = Ok "roberta-large".
Proof. by split. Qed.

(** X13. The file-name form of the model name has no slash, has the length
    of the name, and is the name itself exactly when the name has no
    slash. *)
Theorem dashed_has_no_slash (name : string) :
  contains "/" (dashed name) = false ∧
  String.length (dashed name) = String.length name ∧
  (dashed name = name ↔ contains "/" name = false).
Proof.
  unfold dashed. induction name as [|c n (IH1 & IH2 & IH3)]; [done|].
  cbn [replace_char String.length].
  rewrite !contains_slash_cons, IH1, IH2, (Ascii.eqb_sym c).
  destruct (Ascii.eqb_spec "/"%char c) as [<-|Hc]; cbn [orb].
  - split; [done|]. split; [done|]. split; [|done]. by intros [= ?].
  - split; [by destruct (Ascii.eqb_spec "/"%char c)|]. split; [done|].
    rewrite <- IH3. split; [by intros [= ?]|by intros ->].
Qed.

(** ** Labels and the format mode *)

(** X14. The labels do not depend on the format mode or on the separator
    token: when the construction succeeds for one mode and token, it
    succeeds for every other on the same lines, with the same labels. *)
Theorem labels_independent_of_format
    (random_shuffle : list instance → list instance) (f : list instance)
    (sep_token1 input_format1 sep_token2 input_format2 : string)
    (shuffle : bool) (ds1 : QASCDataset) :
  init random_shuffle f sep_token1 input_format1 shuffle = Ok ds1 →
  ∃ ds2, init random_shuffle f sep_token2 input_format2 shuffle = Ok ds2 ∧
         labels ds2 = labels ds1.
Proof.
  intros [Hok ->]%init_Ok_inv. eexists. split; [by apply init_ok|done].
Qed.

Lemma labels_independent_of_format_witness :
  ∃ ds2, init reverse [line_xy; line_key_D] "[SEP]" "5" true = Ok ds2 ∧
         labels ds2 = [0; 0; 0; 1; 0; 0; 0; 0; 0; 1; 0; 0; 0; 0; 0; 0]%Z.
Proof.
  apply (labels_independent_of_format reverse [line_xy; line_key_D]
           "</s>" "0" "[SEP]" "5" true
           {| content := ["stem x"; "stem y"; "stem x"; "stem y"];
              labels := [0; 0; 0; 1; 0; 0; 0; 0;
                         0; 1; 0; 0; 0; 0; 0; 0]%Z |}).
  reflexivity.
Defined.

(** ** The position [argmax] finds *)

Lemma argmax_from_spec (row : list Z) (best : Z) (besti k : nat) :
  (argmax_from best besti k row = besti ∧ Forall (fun w => (w ≤ best)%Z) row) ∨
  (∃ j v, argmax_from best besti k row = k + j ∧ row !! j = Some v ∧
          (best < v)%Z ∧ Forall (fun w => (w ≤ v)%Z) row ∧
          ∀ j' w, j' < j → row !! j' = Some w → (w < v)%Z).
Proof.
  revert best besti k. induction row as [|x row IH]; intros best besti k.
  - left. by split.
  - cbn [argmax_from]. destruct (Z.ltb_spec best x) as [Hlt|Hge].
    + destruct (IH x k (S k)) as [[Hr Hall]|(j & v & Hr & Hj & Hv & Hall & Hfirst)].
      * right. exists 0, x. rewrite Hr, Nat.add_0_r.
        split; [done|]. split; [done|]. split; [done|].
        split; [constructor; [lia|done]|]. intros j' w Hj'. lia.
      * right. exists (S j), v. rewrite Hr.
        split; [lia|]. split; [done|]. split; [lia|].
        split; [constructor; [lia|done]|].
        intros [|j'] w Hj' Hw; [injection Hw as <-; lia|].
        apply (Hfirst j' w); [lia|done].
    + destruct (IH best besti (S k))
        as [[Hr Hall]|(j & v & Hr & Hj & Hv & Hall & Hfirst)].
      * left. split; [done|]. by constructor.
      * right. exists (S j), v. rewrite Hr.
        split; [lia|]. split; [done|]. split; [done|].
        split; [constructor; [lia|done]|].
        intros [|j'] w Hj' Hw; [injection Hw as <-; lia|].
        apply (Hfirst j' w); [lia|done].
Qed.

(** X15. [argmax] fails exactly on an empty row; on any other row it returns
    the first position that holds the largest entry: every entry is at most
    the entry there, and every entry before it is smaller. *)
Theorem argmax_first_largest (row : list Z) :
  (row = [] ∧ argmax row = Raise ValueError) ∨
  (∃ i v, argmax row = Ok i ∧ row !! i = Some v ∧
          Forall (fun w => (w ≤ v)%Z) row ∧
          ∀ j w, j < i → row !! j = Some w → (w < v)%Z).
Proof.
  destruct row as [|x row]; [by left|right]. cbn [argmax].
  destruct (argmax_from_spec row x 0 1)
    as [[Hr Hall]|(j & v & Hr & Hj & Hv & Hall & Hfirst)].
  - exists 0, x. rewrite Hr. split; [done|]. split; [done|].
    split; [constructor; [lia|done]|]. intros j w Hj. lia.
  - exists (S j), v. rewrite Hr. split; [done|]. split; [done|].
    split; [constructor; [lia|done]|].
    intros [|j'] w Hj' Hw; [injection Hw as <-; lia|].
    apply (Hfirst j' w); [lia|done].
Qed.

(** ** Batches of a shuffling loader *)

Lemma getitem_all (ds : QASCDataset) (indices : list nat) :
  length (content ds) ≤ length (labels ds) →
  Forall (fun i => i < len ds) indices →
  for_list (getitem ds) indices
  = Ok (map (fun i => (default "" (content ds !! i),
                       default 0%Z (labels ds !! i))) indices).
Proof.
  intros Hle Hin. apply for_list_Ok. intros i Hi.
  eapply Forall_forall in Hin; [|exact Hi]. unfold len in Hin.
  destruct (lookup_lt_is_Some_2 (content ds) i Hin) as [t Ht].
  destruct (lookup_lt_is_Some_2 (labels ds) i) as [v Hv]; [lia|].
  unfold getitem, subscript. by rewrite Ht, Hv.
Qed.

(** X16. A loader that shuffles, with a positive batch size, whose sampler
    draws a permutation of the indices of a dataset with at least as many
    labels as texts, loses and repeats nothing: the examples of its batches,
    put end to end, are the examples of the dataset in another order, and
    every batch is non-empty, no larger than the batch size, with as many
    labels as texts. *)
Theorem shuffled_batches_permute_examples (sampler : list nat)
    (dl : DataLoader) :
  dl_shuffle dl = true →
  0 < batch_size dl →
  length (content (dataset dl)) ≤ length (labels (dataset dl)) →
  sampler ≡ₚ seq 0 (len (dataset dl)) →
  ∃ bs, batches sampler dl = Ok bs ∧
        zip (flatten (bs.*1)) (flatten (bs.*2))
        ≡ₚ zip (content (dataset dl)) (labels (dataset dl)) ∧
        Forall (fun b => 0 < length b.1 ≤ batch_size dl ∧
                         length b.2 = length b.1) bs.
Proof.
  intros Hsh Hbs Hle Hperm. unfold batches. rewrite Hsh.
  destruct (Nat.eqb_spec (batch_size dl) 0) as [|_]; [lia|].
  rewrite for_list_then_map.
  set (g := fun i => (default "" (content (dataset dl) !! i),
                      default 0%Z (labels (dataset dl) !! i))).
  assert (Hall : ∀ l, l ≡ₚ seq 0 (len (dataset dl)) →
                      for_list (getitem (dataset dl)) l = Ok (map g l)).
  { intros l Hl. apply getitem_all; [done|].
    eapply Permutation_Forall; [symmetry; exact Hl|].
    apply Forall_forall. intros i Hi%elem_of_seq. lia. }
  destruct (for_list_concat (getitem (dataset dl))
              (slices (length sampler) (batch_size dl) sampler)
              (map g sampler))
    as (yss & Hyss & Hcat & Hlen).
  { rewrite slices_concat by lia. by apply Hall. }
  rewrite Hyss. exists (collate_fn <$> yss). split; [done|].
  destruct (concat_columns yss) as [H1 H2]. unfold flatten. split.
  - rewrite H1, H2, zip_fst_snd, Hcat.
    assert (Hitems : map g (seq 0 (len (dataset dl)))
                     = zip (content (dataset dl)) (labels (dataset dl))).
    { pose proof (Hall _ (reflexivity _)) as Hseq.
      destruct (dataset dl) as [c l]. cbn [content labels len] in *.
      pose proof (items_zip c l Hle) as Hz. unfold items, group in Hz.
      cbn [len content] in Hz. rewrite Hseq in Hz. by injection Hz. }
    rewrite <- Hitems. by apply fmap_Permutation.
  - pose proof (slices_sizes (length sampler) (batch_size dl) sampler Hbs)
      as Hsz.
    apply Forall_fmap. clear -Hsz Hlen.
    induction Hlen as [|l y sl yss Hy _ IH]; [constructor|].
    apply Forall_cons in Hsz as [Hl Hsz].
    constructor; [|by apply IH].
    cbn [collate_fn fst snd compose]. rewrite !length_fmap. lia.
Qed.

Lemma shuffled_batches_permute_examples_witness :
  ∃ bs, batches [2; 0; 1]
          {| dataset := {| content := ["a"; "b"; "c"];
                           labels := [0; 1; 0; 0; 0; 0; 0; 0]%Z |};
             dl_shuffle := true; batch_size := 2 |} = Ok bs ∧
        zip (flatten (bs.*1)) (flatten (bs.*2))
        ≡ₚ zip ["a"; "b"; "c"] [0; 1; 0; 0; 0; 0; 0; 0]%Z ∧
        Forall (fun b => 0 < length b.1 ≤ 2 ∧ length b.2 = length b.1) bs.
Proof.
  apply (shuffled_batches_permute_examples [2; 0; 1]
           {| dataset := {| content := ["a"; "b"; "c"];
                            labels := [0; 1; 0; 0; 0; 0; 0; 0]%Z |};
              dl_shuffle := true; batch_size := 2 |}).
  - reflexivity.
  - simpl. lia.
  - simpl. lia.
  - cbn. apply (Permutation_cons_append [0; 1] 2).
Defined.

(** ** The labels the evaluation decodes *)

Lemma configure_dataloaders_positive
    (random_shuffle : list instance → list instance) (fs : files)
    (sep_token : string) (train_batch_size eval_batch_size : nat)
    (shuffle : bool) (input_format : string)
    (loaders : DataLoader * DataLoader * DataLoader) :
  configure_dataloaders random_shuffle fs sep_token train_batch_size
    eval_batch_size shuffle input_format = Ok loaders →
  0 < train_batch_size ∧ 0 < eval_batch_size.
Proof.
  unfold configure_dataloaders. intros H.
  destruct (init _ (train_jsonl fs) _ _ true) as [dtr|]; [|done].
  cbn [mbind result_bind] in H.
  destruct (new_DataLoader dtr shuffle train_batch_size) as [ltr|] eqn:Ltr;
    [|done].
  destruct (init _ (dev_jsonl fs) _ _ false) as [dva|]; [|done].
  cbn [mbind result_bind] in H.
  destruct (new_DataLoader dva false eval_batch_size) as [lva|] eqn:Lva;
    [|done].
  apply new_DataLoader_Ok in Ltr as (_ & _ & _ & ?).
  apply new_DataLoader_Ok in Lva as (_ & _ & _ & ?).
  done.
Qed.

(** The labels a loader that does not shuffle hands to the metrics: the
    first [len] labels of its dataset. *)
Lemma unshuffled_labels_read (sampler : list nat) (dl : DataLoader) :
  dl_shuffle dl = false →
  0 < batch_size dl →
  length (content (dataset dl)) ≤ length (labels (dataset dl)) →
  ∃ bs, batches sampler dl = Ok bs ∧
        flatten (bs.*2) = take (len (dataset dl)) (labels (dataset dl)).
Proof.
  intros Hsh Hbs Hle.
  destruct (unshuffled_batches sampler dl Hsh Hbs Hle)
    as (yss & Hb & Hcat & _).
  exists (collate_fn <$> yss). split; [done|].
  destruct (concat_columns yss) as [_ H2]. unfold flatten, len.
  rewrite H2, Hcat.
  rewrite <- (zip_with_take_r pair (content (dataset dl))
                (labels (dataset dl))).
  apply snd_zip. rewrite length_take. lia.
Qed.

Lemma argmax_rows (m : list (list Z)) :
  Forall (fun row => length row = 8) m →
  ∃ ps, for_list argmax m = Ok ps ∧ length ps = length m.
Proof.
  induction 1 as [|row m Hrow _ (ps & Hps & Hlen)]; [by exists []|].
  destruct row as [|v row]; [done|].
  cbn [for_list argmax]. rewrite Hps. cbn [mbind result_bind].
  eexists. split; [reflexivity|]. simpl. by rewrite Hlen.
Qed.

(** X4. What the validation metrics decode is what the loader read, one
    label per text, not the 8 labels per line the dataset holds: in modes
    0, 1, 2, over a validation file whose lines have at most 8 choices, the
    flattened batch labels are as many as the choices of the file; their
    reshape into rows of 8 raises when that number is not a multiple of 8,
    and when it is 8k the decode gives k instance labels. *)
Theorem validation_decode_counts_texts
    (random_shuffle : list instance → list instance) (fs : files)
    (sep_token : string) (train_batch_size eval_batch_size : nat)
    (shuffle : bool) (input_format : string)
    (train_loader val_loader test_loader : DataLoader)
    (sampler : list nat) :
  configure_dataloaders random_shuffle fs sep_token train_batch_size
    eval_batch_size shuffle input_format
  = Ok (train_loader, val_loader, test_loader) →
  input_format ∈ ["0"; "1"; "2"] →
  Forall (fun r => length (choices r) ≤ 8) (dev_jsonl fs) →
  ∃ bs, batches sampler val_loader = Ok bs ∧
        length (flatten (bs.*2))
        = sum_list_with (fun r => length (choices r)) (dev_jsonl fs) ∧
        ((∀ k, length (flatten (bs.*2)) ≠ 8 * k) →
         instance_labels (flatten (bs.*2)) = Raise ValueError) ∧
        (∀ k, length (flatten (bs.*2)) = 8 * k →
              ∃ ps, instance_labels (flatten (bs.*2)) = Ok ps ∧
                    length ps = k).
Proof.
  intros Hcfg Hfmt Hle.
  destruct (configure_dataloaders_positive _ _ _ _ _ _ _ _ Hcfg) as [_ Heb].
  apply configure_dataloaders_inv in Hcfg as (_ & (Hva & Hsh & Hbs) & _).
  pose proof Hva as [_ Hds]%init_Ok_inv. cbn [lines_read] in Hds.
  assert (Hc : length (content (dataset val_loader))
               = sum_list_with (fun r => length (choices r)) (dev_jsonl fs)).
  { rewrite Hds. cbn [content].
    by rewrite length_concat_map, sum_length_texts. }
  assert (Hcl : length (content (dataset val_loader))
                ≤ length (labels (dataset val_loader))).
  { rewrite Hds. cbn [content labels].
    rewrite length_concat_label_vector.
    by apply length_concat_texts_at_most. }
  destruct (unshuffled_labels_read sampler val_loader Hsh) as (bs & Hb & Hfl);
    [lia|done|].
  exists bs. split; [done|].
  assert (Hlen : length (flatten (bs.*2))
                 = sum_list_with (fun r => length (choices r)) (dev_jsonl fs)).
  { rewrite Hfl, length_take_le; [exact Hc|]. unfold len. lia. }
  split; [done|].
  unfold instance_labels, reshape, num_choices. cbn [Nat.eqb]. split.
  - intros Hno.
    destruct (Nat.eqb_spec (length (flatten (bs.*2)) `mod` 8) 0) as [H0|];
      [|done].
    exfalso. apply (Hno (length (flatten (bs.*2)) `div` 8)).
    pose proof (Nat.div_mod_eq (length (flatten (bs.*2))) 8). lia.
  - intros k Hk.
    assert (Hmod : length (flatten (bs.*2)) `mod` 8 = 0).
    { rewrite Hk, Nat.mul_comm. by apply Nat.Div0.mod_mul. }
    assert (Hdiv : length (flatten (bs.*2)) `div` 8 = k).
    { rewrite Hk, Nat.mul_comm. by apply Nat.div_mul. }
    rewrite Hmod, Hdiv. cbn [Nat.eqb mbind result_bind].
    destruct (rows_spec k 8 (flatten (bs.*2))) as (H1 & H2 & _); [lia|].
    destruct (argmax_rows _ H2) as (ps & Hps & Hpl).
    exists ps. split; [done|lia].
Qed.

Lemma validation_decode_counts_texts_witness :
  ∃ train_loader val_loader test_loader bs,
    configure_dataloaders reverse
      {| train_jsonl := [line_abcdefgh];
         dev_jsonl := [line_xy; line_key_D; line_abcdefgh];
         test_jsonl := [] |} "</s>" 8 8 false "1"
    = Ok (train_loader, val_loader, test_loader) ∧
    batches [] val_loader = Ok bs ∧
    length (flatten (bs.*2)) = 12 ∧
    instance_labels (flatten (bs.*2)) = Raise ValueError.
Proof.
  eexists _, _, _.
  destruct (validation_decode_counts_texts reverse
              {| train_jsonl := [line_abcdefgh];
                 dev_jsonl := [line_xy; line_key_D; line_abcdefgh];
                 test_jsonl := [] |} "</s>" 8 8 false "1" _ _ _ [] eq_refl)
    as (bs & Hb & Hlen & Hno & _).
  - rewrite !elem_of_cons. tauto.
  - repeat constructor; simpl; lia.
  - exists bs. split; [reflexivity|]. split; [exact Hb|].
    split; [exact Hlen|]. apply Hno. intros k. rewrite Hlen. simpl. lia.
Defined.

(** The decode through a loader that does not shuffle, over lines that all
    have 8 choices. *)
Lemma aligned_loader_decode
    (random_shuffle : list instance → list instance) (f : list instance)
    (sep_token input_format : string) (sampler : list nat)
    (dl : DataLoader) :
  init random_shuffle f sep_token input_format false = Ok (dataset dl) →
  dl_shuffle dl = false →
  0 < batch_size dl →
  input_format ∈ ["0"; "1"; "2"] →
  Forall (fun r => length (choices r) = 8) f →
  ∃ bs, batches sampler dl = Ok bs ∧
        instance_labels (flatten (bs.*2)) = Ok (map answer_position f).
Proof.
  intros Hinit Hsh Hbs Hfmt H8.
  pose proof (decode_labels _ _ _ _ _ _ Hinit) as [Hdec _].
  pose proof Hinit as [_ Hds]%init_Ok_inv. cbn [lines_read] in Hds, Hdec.
  assert (Hc : length (content (dataset dl)) = 8 * length f).
  { rewrite Hds. cbn [content].
    by apply length_concat_texts_aligned, texts_eight. }
  assert (Hl : length (labels (dataset dl)) = 8 * length f).
  { rewrite Hds. cbn [labels]. apply length_concat_label_vector. }
  destruct (unshuffled_labels_read sampler dl Hsh Hbs) as (bs & Hb & Hfl);
    [lia|].
  exists bs. split; [done|].
  rewrite Hfl, take_ge; [exact Hdec|]. unfold len. lia.
Qed.

(** X7. On held-out test data (no line has an answer key) whose lines all
    have 8 choices, in modes 0, 1, 2, the labels the test loader reads
    decode to instance label 0 for every question, in file order: the
    reference the test instance accuracy is measured against is answer A
    throughout. *)
Theorem test_instance_labels_of_unlabelled_file
    (random_shuffle : list instance → list instance) (fs : files)
    (sep_token : string) (train_batch_size eval_batch_size : nat)
    (shuffle : bool) (input_format : string)
    (train_loader val_loader test_loader : DataLoader)
    (sampler : list nat) :
  configure_dataloaders random_shuffle fs sep_token train_batch_size
    eval_batch_size shuffle input_format
  = Ok (train_loader, val_loader, test_loader) →
  input_format ∈ ["0"; "1"; "2"] →
  Forall (fun r => answerKey r = None) (test_jsonl fs) →
  Forall (fun r => length (choices r) = 8) (test_jsonl fs) →
  ∃ bs, batches sampler test_loader = Ok bs ∧
        instance_labels (flatten (bs.*2))
        = Ok (replicate (length (test_jsonl fs)) 0).
Proof.
  intros Hcfg Hfmt Hnone H8.
  destruct (configure_dataloaders_positive _ _ _ _ _ _ _ _ Hcfg) as [_ Heb].
  apply configure_dataloaders_inv in Hcfg as (_ & _ & (Hte & Hsh & Hbs)).
  destruct (aligned_loader_decode _ _ _ _ sampler _ Hte Hsh) as (bs & Hb & Hd);
    [lia|done|done|].
  exists bs. split; [done|].
  destruct (unlabelled_vectors _ Hnone) as [_ Hpos]. by rewrite Hd, Hpos.
Qed.

Lemma test_instance_labels_of_unlabelled_file_witness :
  ∃ train_loader val_loader test_loader bs,
    configure_dataloaders reverse
      {| train_jsonl := [line_abcdefgh];
         dev_jsonl := [line_ijklmnop];
         test_jsonl := [line_unlabelled; line_unlabelled; line_unlabelled] |}
      "</s>" 8 16 true "2"
    = Ok (train_loader, val_loader, test_loader) ∧
    batches [] test_loader = Ok bs ∧
    instance_labels (flatten (bs.*2)) = Ok [0; 0; 0].
Proof.
  eexists _, _, _.
  destruct (test_instance_labels_of_unlabelled_file reverse
              {| train_jsonl := [line_abcdefgh];
                 dev_jsonl := [line_ijklmnop];
                 test_jsonl :=
                   [line_unlabelled; line_unlabelled; line_unlabelled] |}
              "</s>" 8 16 true "2" _ _ _ [] eq_refl)
    as (bs & Hb & Hd).
  - rewrite !elem_of_cons. tauto.
  - by repeat constructor.
  - by repeat constructor.
  - exists bs. by repeat split.
Defined.
